(** * AudioManager: a shallow embedding of the playback/mute synchroniser

    Source: [src/app/components/AudioManager.tsx].

    The component is a React function component.  Its behaviour is a set of
    callbacks that run one at a time on the page's event loop and mutate
    - the three [useState] cells ([isMuted], [isPlaying], [easterEggActive]),
    - the [useRef] cells (two [HTMLAudioElement]s, the [AudioContext], the
      first-toggle flag, the mirrors [isMutedRef]/[isPlayingRef], the stored
      media-session handlers),
    - browser objects reached through them ([navigator.mediaSession],
      document listeners, interval timers).

    The embedding passes that state explicitly.  Two points of the React
    execution model are kept apart because the code depends on them:
    - a state setter only records the new value ([store]); functions created
      by a render read the values of that render ([rendered], or an explicit
      [Snapshot] argument for a callback that outlives its render);
    - [useEffect] bodies run when a render commits and one of their
      dependencies changed ([render]).

    What the browser decides is an argument of the step it decides: [allow]
    says whether a [play()] request is accepted, the continuations of a
    [play()] promise ([_then], [_catch]) are steps of their own, and queued
    media events are delivered by [deliver].

    Numbers: JavaScript volumes are doubles; they are modelled as exact
    rationals.  [console.log]/[console.error] have no effect on the state and
    are left out.  The frequency sampling of the visualiser is reduced to the
    flag saying whether the animation loop is running.  The cleanup of the
    mount effect (unmounting) and a constructor throwing inside it are not
    modelled: every run below is that of a mounted component. *)

From Stdlib Require Import Bool List ZArith QArith Lia.
Import ListNotations.

Local Open Scope Q_scope.

(** ** Data model *)

(** The values of the three [useState] cells. *)
Record Snapshot := mkSnapshot {
  isMuted : bool;
  isPlaying : bool;
  easterEggActive : bool
}.

(** The part of an [HTMLAudioElement] the component reads or writes. *)
Record Audio := mkAudio {
  paused : bool;
  volume : Q;
  loop : bool;
  currentTime : Q
}.

(** [new Audio(src)]: paused, full volume, no loop, position 0
    (the defaults of the HTML media element). *)
Definition newAudio : Audio := mkAudio true 1 false 0.

Inductive Track := Background | Effect.

Inductive ContextState := Suspended | Running | Closed.

Inductive ErrorName := AbortError | NotAllowedError | NotSupportedError | OtherError.

Inductive PlaybackState := PSNone | PSPlaying | PSPaused.

Inductive Metadata := LofiBeats | EasterEggSound.

(** The functions installed as media-session action handlers.  The effect's
    pause handler closes over the render that created it. *)
Inductive Handler :=
| BackgroundPlayHandler
| BackgroundPauseHandler
| EasterEggPauseHandler (r : Snapshot)
| FallbackPlayHandler
| FallbackPauseHandler.

Record Session := mkSession {
  metadata : option Metadata;
  playbackState : PlaybackState;
  playHandler : option Handler;
  pauseHandler : option Handler
}.

Inductive Notification := AudioMuteToggled | AudioPlayPauseToggled.

Inductive MediaEvent := EvPlaying | EvPause | EvEnded.

(** What the component asked of its environment, in program order.
    [Play]/[Pause] carry the element as it was when the method was called. *)
Inductive Cmd :=
| Play (t : Track) (a : Audio)
| Pause (t : Track) (a : Audio)
| ResumeContext
| Dispatch (n : Notification)
| SetIsMuted (b : bool)
| SetIsPlaying (b : bool)
| SetEasterEggActive (b : bool).

Record State := mkState {
  store : Snapshot;
  rendered : Snapshot;
  backgroundMusicRef : option Audio;
  easterEggSoundRef : option Audio;
  audioContextRef : option ContextState;
  firstToggleDoneRef : bool;
  isMutedRef : bool;
  isPlayingRef : bool;
  mediaSessionPlayHandlerRef : option Handler;
  mediaSessionPauseHandlerRef : option Handler;
  mediaSession : option Session;
  interactionListeners : bool;
  playPauseListener : bool;
  visualizing : bool;
  fadeIntervals : list Snapshot;
  events : list (Track * MediaEvent);
  trace : list Cmd
}.

(** ** Field updates *)

Definition set_paused (b : bool) (a : Audio) : Audio :=
  mkAudio b (volume a) (loop a) (currentTime a).
Definition set_volume (v : Q) (a : Audio) : Audio :=
  mkAudio (paused a) v (loop a) (currentTime a).
Definition set_loop (b : bool) (a : Audio) : Audio :=
  mkAudio (paused a) (volume a) b (currentTime a).
Definition set_currentTime (t : Q) (a : Audio) : Audio :=
  mkAudio (paused a) (volume a) (loop a) t.

Definition set_store (x : Snapshot) (s : State) : State :=
  mkState x (rendered s) (backgroundMusicRef s) (easterEggSoundRef s)
    (audioContextRef s) (firstToggleDoneRef s) (isMutedRef s) (isPlayingRef s)
    (mediaSessionPlayHandlerRef s) (mediaSessionPauseHandlerRef s)
    (mediaSession s) (interactionListeners s) (playPauseListener s)
    (visualizing s) (fadeIntervals s) (events s) (trace s).
Definition set_rendered (x : Snapshot) (s : State) : State :=
  mkState (store s) x (backgroundMusicRef s) (easterEggSoundRef s)
    (audioContextRef s) (firstToggleDoneRef s) (isMutedRef s) (isPlayingRef s)
    (mediaSessionPlayHandlerRef s) (mediaSessionPauseHandlerRef s)
    (mediaSession s) (interactionListeners s) (playPauseListener s)
    (visualizing s) (fadeIntervals s) (events s) (trace s).
Definition set_backgroundMusicRef (x : option Audio) (s : State) : State :=
  mkState (store s) (rendered s) x (easterEggSoundRef s)
    (audioContextRef s) (firstToggleDoneRef s) (isMutedRef s) (isPlayingRef s)
    (mediaSessionPlayHandlerRef s) (mediaSessionPauseHandlerRef s)
    (mediaSession s) (interactionListeners s) (playPauseListener s)
    (visualizing s) (fadeIntervals s) (events s) (trace s).
Definition set_easterEggSoundRef (x : option Audio) (s : State) : State :=
  mkState (store s) (rendered s) (backgroundMusicRef s) x
    (audioContextRef s) (firstToggleDoneRef s) (isMutedRef s) (isPlayingRef s)
    (mediaSessionPlayHandlerRef s) (mediaSessionPauseHandlerRef s)
    (mediaSession s) (interactionListeners s) (playPauseListener s)
    (visualizing s) (fadeIntervals s) (events s) (trace s).
Definition set_audioContextRef (x : option ContextState) (s : State) : State :=
  mkState (store s) (rendered s) (backgroundMusicRef s) (easterEggSoundRef s)
    x (firstToggleDoneRef s) (isMutedRef s) (isPlayingRef s)
    (mediaSessionPlayHandlerRef s) (mediaSessionPauseHandlerRef s)
    (mediaSession s) (interactionListeners s) (playPauseListener s)
    (visualizing s) (fadeIntervals s) (events s) (trace s).
Definition set_firstToggleDoneRef (x : bool) (s : State) : State :=
  mkState (store s) (rendered s) (backgroundMusicRef s) (easterEggSoundRef s)
    (audioContextRef s) x (isMutedRef s) (isPlayingRef s)
    (mediaSessionPlayHandlerRef s) (mediaSessionPauseHandlerRef s)
    (mediaSession s) (interactionListeners s) (playPauseListener s)
    (visualizing s) (fadeIntervals s) (events s) (trace s).
Definition set_stateRefs (m p : bool) (s : State) : State :=
  mkState (store s) (rendered s) (backgroundMusicRef s) (easterEggSoundRef s)
    (audioContextRef s) (firstToggleDoneRef s) m p
    (mediaSessionPlayHandlerRef s) (mediaSessionPauseHandlerRef s)
    (mediaSession s) (interactionListeners s) (playPauseListener s)
    (visualizing s) (fadeIntervals s) (events s) (trace s).
Definition set_handlerRefs (pl pa : option Handler) (s : State) : State :=
  mkState (store s) (rendered s) (backgroundMusicRef s) (easterEggSoundRef s)
    (audioContextRef s) (firstToggleDoneRef s) (isMutedRef s) (isPlayingRef s)
    pl pa
    (mediaSession s) (interactionListeners s) (playPauseListener s)
    (visualizing s) (fadeIntervals s) (events s) (trace s).
Definition set_mediaSession (x : option Session) (s : State) : State :=
  mkState (store s) (rendered s) (backgroundMusicRef s) (easterEggSoundRef s)
    (audioContextRef s) (firstToggleDoneRef s) (isMutedRef s) (isPlayingRef s)
    (mediaSessionPlayHandlerRef s) (mediaSessionPauseHandlerRef s)
    x (interactionListeners s) (playPauseListener s)
    (visualizing s) (fadeIntervals s) (events s) (trace s).
Definition set_listeners (i p : bool) (s : State) : State :=
  mkState (store s) (rendered s) (backgroundMusicRef s) (easterEggSoundRef s)
    (audioContextRef s) (firstToggleDoneRef s) (isMutedRef s) (isPlayingRef s)
    (mediaSessionPlayHandlerRef s) (mediaSessionPauseHandlerRef s)
    (mediaSession s) i p
    (visualizing s) (fadeIntervals s) (events s) (trace s).
Definition set_visualizing (x : bool) (s : State) : State :=
  mkState (store s) (rendered s) (backgroundMusicRef s) (easterEggSoundRef s)
    (audioContextRef s) (firstToggleDoneRef s) (isMutedRef s) (isPlayingRef s)
    (mediaSessionPlayHandlerRef s) (mediaSessionPauseHandlerRef s)
    (mediaSession s) (interactionListeners s) (playPauseListener s)
    x (fadeIntervals s) (events s) (trace s).
Definition set_fadeIntervals (x : list Snapshot) (s : State) : State :=
  mkState (store s) (rendered s) (backgroundMusicRef s) (easterEggSoundRef s)
    (audioContextRef s) (firstToggleDoneRef s) (isMutedRef s) (isPlayingRef s)
    (mediaSessionPlayHandlerRef s) (mediaSessionPauseHandlerRef s)
    (mediaSession s) (interactionListeners s) (playPauseListener s)
    (visualizing s) x (events s) (trace s).
Definition set_events (x : list (Track * MediaEvent)) (s : State) : State :=
  mkState (store s) (rendered s) (backgroundMusicRef s) (easterEggSoundRef s)
    (audioContextRef s) (firstToggleDoneRef s) (isMutedRef s) (isPlayingRef s)
    (mediaSessionPlayHandlerRef s) (mediaSessionPauseHandlerRef s)
    (mediaSession s) (interactionListeners s) (playPauseListener s)
    (visualizing s) (fadeIntervals s) x (trace s).
Definition set_trace (x : list Cmd) (s : State) : State :=
  mkState (store s) (rendered s) (backgroundMusicRef s) (easterEggSoundRef s)
    (audioContextRef s) (firstToggleDoneRef s) (isMutedRef s) (isPlayingRef s)
    (mediaSessionPlayHandlerRef s) (mediaSessionPauseHandlerRef s)
    (mediaSession s) (interactionListeners s) (playPauseListener s)
    (visualizing s) (fadeIntervals s) (events s) x.

(** ** Browser interface *)

(** Append a command to the trace. *)
Definition emit (c : Cmd) (s : State) : State := set_trace (trace s ++ [c]) s.

Definition enqueue (t : Track) (e : MediaEvent) (s : State) : State :=
  set_events (events s ++ [(t, e)]) s.

Definition getTrack (t : Track) (s : State) : option Audio :=
  match t with
  | Background => backgroundMusicRef s
  | Effect => easterEggSoundRef s
  end.

Definition setTrack (t : Track) (a : Audio) (s : State) : State :=
  match t with
  | Background => set_backgroundMusicRef (Some a) s
  | Effect => set_easterEggSoundRef (Some a) s
  end.

(** Apply [f] to the element behind a ref, when there is one. *)
Definition updTrack (t : Track) (f : Audio -> Audio) (s : State) : State :=
  match getTrack t s with
  | Some a => setTrack t (f a) s
  | None => s
  end.

(** [HTMLMediaElement.pause()]: the element is paused at once; a [pause]
    event is queued when it was playing. *)
Definition pause (t : Track) (s : State) : State :=
  match getTrack t s with
  | None => s
  | Some a =>
      let s1 := setTrack t (set_paused true a) (emit (Pause t a) s) in
      if paused a then s1 else enqueue t EvPause s1
  end.

(** [HTMLMediaElement.play()].  [allow] is the browser's decision: when it
    accepts the request the element leaves the paused state at once and a
    [playing] event is queued; when it refuses (autoplay policy, unusable
    source) the element is unchanged.  The promise returned by the call is
    settled later, see the [_then]/[_catch] continuations below. *)
Definition play (allow : bool) (t : Track) (s : State) : State :=
  match getTrack t s with
  | None => s
  | Some a =>
      let s1 := emit (Play t a) s in
      if allow && paused a
      then enqueue t EvPlaying (setTrack t (set_paused false a) s1)
      else s1
  end.

(** [if (audioContextRef.current?.state === 'suspended')
       audioContextRef.current.resume()]. *)
Definition resumeContextIfSuspended (s : State) : State :=
  match audioContextRef s with
  | Some Suspended => set_audioContextRef (Some Running) (emit ResumeContext s)
  | _ => s
  end.

(** [if ('mediaSession' in navigator) navigator.mediaSession.playbackState = p]. *)
Definition setPlaybackState (p : PlaybackState) (s : State) : State :=
  match mediaSession s with
  | Some m =>
      set_mediaSession
        (Some (mkSession (metadata m) p (playHandler m) (pauseHandler m))) s
  | None => s
  end.

(** ** State setters *)

Definition setIsMuted (f : bool -> bool) (s : State) : State :=
  let st := store s in
  let b := f (isMuted st) in
  emit (SetIsMuted b)
    (set_store (mkSnapshot b (isPlaying st) (easterEggActive st)) s).

Definition setIsPlaying (b : bool) (s : State) : State :=
  let st := store s in
  emit (SetIsPlaying b)
    (set_store (mkSnapshot (isMuted st) b (easterEggActive st)) s).

Definition setEasterEggActive (b : bool) (s : State) : State :=
  let st := store s in
  emit (SetEasterEggActive b)
    (set_store (mkSnapshot (isMuted st) (isPlaying st) b) s).

(** ** Visualisation and notifications *)

(** [startVisualization]: does nothing without an analyser (the analyser is
    created together with the audio context). *)
Definition startVisualization (s : State) : State :=
  match audioContextRef s with
  | None => s
  | Some _ => set_visualizing true s
  end.

Definition stopVisualization (s : State) : State := set_visualizing false s.

(** The snapshot of the first render: [useState(false)] three times.  The
    callbacks created inside the mount effect keep reading these values. *)
Definition firstRender : Snapshot := mkSnapshot false false false.

(** [updateMediaSessionStateRef.current], created by a render with snapshot [r]. *)
Definition updateMediaSessionState (r : Snapshot) (s : State) : State :=
  setPlaybackState (if isPlaying r then PSPlaying else PSPaused) s.

(** [document.dispatchEvent(new CustomEvent(n))]: the listeners run inside
    the call.  The only listener the component itself registers is
    [updateMediaSessionState] on the play/pause notification. *)
Definition dispatch (n : Notification) (s : State) : State :=
  let s1 := emit (Dispatch n) s in
  match n with
  | AudioPlayPauseToggled =>
      if playPauseListener s1 then updateMediaSessionState firstRender s1 else s1
  | AudioMuteToggled => s1
  end.

(** ** The effects of a render *)

(** [useEffect(() => { isMutedRef.current = isMuted; isPlayingRef.current =
    isPlaying }, [isMuted, isPlaying])]. *)
Definition refSyncEffect (r : Snapshot) (s : State) : State :=
  set_stateRefs (isMuted r) (isPlaying r) s.

(** The mute effect, lines 302-323, dependencies [isMuted, easterEggActive]. *)
Definition muteEffect (r : Snapshot) (s : State) : State :=
  match backgroundMusicRef s, easterEggSoundRef s with
  | Some _, Some _ =>
      if isMuted r then
        updTrack Effect (set_volume 0) (updTrack Background (set_volume 0) s)
      else
        let s1 := updTrack Background (set_volume (1#2)) s in
        let s2 :=
          match easterEggSoundRef s1 with
          | Some e =>
              if easterEggActive r && negb (paused e)
              then updTrack Effect (set_volume 1) s1
              else s1
          | None => s1
          end in
        resumeContextIfSuspended s2
  | _, _ => s
  end.

(** The play/pause effect, lines 327-365, dependency [isPlaying]. *)
Definition playPauseEffect (r : Snapshot) (allow : bool) (s : State) : State :=
  match backgroundMusicRef s with
  | None => s
  | Some audio =>
      let currentlyPlaying := negb (paused audio) in
      if Bool.eqb (isPlaying r) currentlyPlaying then s
      else if isPlaying r then
        let s1 := if loop audio then s else updTrack Background (set_loop true) s in
        play allow Background (resumeContextIfSuspended s1)
      else pause Background s
  end.

(** A render commits the stored values and runs the effects whose
    dependencies differ from those of the previous render, in source order. *)
Definition render (allow : bool) (s : State) : State :=
  let old := rendered s in
  let new := store s in
  let dMuted := negb (Bool.eqb (isMuted old) (isMuted new)) in
  let dPlaying := negb (Bool.eqb (isPlaying old) (isPlaying new)) in
  let dActive := negb (Bool.eqb (easterEggActive old) (easterEggActive new)) in
  let s0 := set_rendered new s in
  let s1 := if dMuted || dPlaying then refSyncEffect new s0 else s0 in
  let s2 := if dMuted || dActive then muteEffect new s1 else s1 in
  if dPlaying then playPauseEffect new allow s2 else s2.

(** ** Mounting *)

(** The component before its first effects ran; [ms] says whether the browser
    has a media session. *)
Definition initial (ms : bool) : State :=
  mkState firstRender firstRender None None None false false false None None
    (if ms then Some (mkSession None PSNone None None) else None)
    false false false [] [] [].

(** The synchronous part of the mount effect, lines 69-229, for a browser that
    constructs the audio objects without throwing; [ctx] is the state in which
    the browser creates the audio context. *)
Definition initEffect (ctx : ContextState) (s : State) : State :=
  let s1 := set_backgroundMusicRef
              (Some (set_volume (1#2) (set_loop true newAudio))) s in
  let s2 := set_easterEggSoundRef (Some (set_loop false newAudio)) s1 in
  let s3 := set_audioContextRef (Some ctx) s2 in
  let s4 := set_handlerRefs (Some BackgroundPlayHandler)
              (Some BackgroundPauseHandler) s3 in
  let s5 :=
    match mediaSession s4 with
    | Some m =>
        let s' := set_mediaSession
                    (Some (mkSession (Some LofiBeats) (playbackState m)
                             (playHandler m) (pauseHandler m))) s4 in
        let s' := updateMediaSessionState firstRender s' in
        let s' := set_listeners (interactionListeners s') true s' in
        match mediaSession s' with
        | Some m' =>
            set_mediaSession
              (Some (mkSession (metadata m') (playbackState m')
                       (mediaSessionPlayHandlerRef s')
                       (mediaSessionPauseHandlerRef s'))) s'
        | None => s'
        end
    | None => s4
    end in
  set_listeners true (playPauseListener s5) s5.

(** The first commit: all four effects run, in source order. *)
Definition mount (ctx : ContextState) (s : State) : State :=
  let r := rendered s in
  playPauseEffect r false (muteEffect r (initEffect ctx (refSyncEffect r s))).

(** ** Listeners of the background element *)

Definition onPlaying (s : State) : State :=
  startVisualization (setIsPlaying true s).

Definition onPause (s : State) : State :=
  stopVisualization (setIsPlaying false s).

(** The [ended] listener reads [isMuted] of the first render. *)
Definition onEnded (allow : bool) (s : State) : State :=
  match backgroundMusicRef s with
  | Some _ =>
      if negb (isMuted firstRender)
      then play allow Background (updTrack Background (set_currentTime 0) s)
      else s
  | None => s
  end.

(** The browser delivers the oldest queued media event.  Only the background
    element has listeners. *)
Definition deliver (allow : bool) (s : State) : State :=
  match events s with
  | [] => s
  | (Background, e) :: rest =>
      let s1 := set_events rest s in
      match e with
      | EvPlaying => onPlaying s1
      | EvPause => onPause s1
      | EvEnded => onEnded allow s1
      end
  | (Effect, _) :: rest => set_events rest s
  end.

(** ** Operations *)

(** [toggleMute], lines 368-371. *)
Definition toggleMute (s : State) : State :=
  setIsMuted negb (dispatch AudioMuteToggled s).

(** [togglePlayPause], lines 374-433. *)
Definition togglePlayPause (allow : bool) (s : State) : State :=
  match backgroundMusicRef s with
  | None => s
  | Some b =>
      if negb (firstToggleDoneRef s) && negb (paused b) then
        let s1 := pause Background s in
        let s2 := setIsPlaying false s1 in
        let s3 := set_firstToggleDoneRef true s2 in
        let s4 := setPlaybackState PSPaused s3 in
        dispatch AudioPlayPauseToggled s4
      else
        let s1 :=
          if paused b
          then play allow Background (resumeContextIfSuspended s)
          else setPlaybackState PSPaused
                 (setIsPlaying false (pause Background s)) in
        dispatch AudioPlayPauseToggled (set_firstToggleDoneRef true s1)
  end.

(** Rejection handler of the [play()] promise of [togglePlayPause]. *)
Definition togglePlayPause_catch (e : ErrorName) (s : State) : State :=
  match e with
  | AbortError => s
  | _ => setPlaybackState PSPaused s
  end.

(** [resumeBackgroundMusic] of the render with snapshot [r], lines 575-625,
    up to the point where [play()] has returned its promise. *)
Definition resumeBackgroundMusic (r : Snapshot) (allow : bool) (s : State) : State :=
  match backgroundMusicRef s with
  | None => s
  | Some b =>
      if negb (isPlaying r) then s
      else if negb (paused b) then s
      else
        let s1 := if loop b then s else updTrack Background (set_loop true) s in
        let s2 := resumeContextIfSuspended s1 in
        play allow Background s2
  end.

(** Fulfilment and rejection handlers of that promise, lines 595-611. *)
Definition resumeBackgroundMusic_then (s : State) : State :=
  setPlaybackState PSPlaying s.

Definition resumeBackgroundMusic_catch (e : ErrorName) (s : State) : State :=
  match e with
  | AbortError => s
  | _ => setPlaybackState PSPaused (setIsPlaying false s)
  end.

(** [restoreBackgroundMusicMediaSession], lines 536-573. *)
Definition restoreBackgroundMusicMediaSession (s : State) : State :=
  match mediaSession s with
  | None => s
  | Some m =>
      let handlers :=
        match mediaSessionPlayHandlerRef s, mediaSessionPauseHandlerRef s with
        | Some pl, Some pa => (Some pl, Some pa)
        | _, _ => (Some FallbackPlayHandler, Some FallbackPauseHandler)
        end in
      let ps :=
        match backgroundMusicRef s with
        | Some b => if paused b then PSPaused else PSPlaying
        | None => PSPaused
        end in
      set_mediaSession
        (Some (mkSession (Some LofiBeats) ps (fst handlers) (snd handlers))) s
  end.

(** [playEasterEggSound] of the render with snapshot [r], lines 435-498, up to
    the point where the effect's [play()] has returned its promise. *)
Definition playEasterEggSound (r : Snapshot) (allow : bool) (s : State) : State :=
  match easterEggSoundRef s with
  | None => s
  | Some _ =>
      let s1 := setEasterEggActive true s in
      let s2 :=
        match backgroundMusicRef s1 with
        | Some _ =>
            if isPlaying r then
              let s' := pause Background s1 in
              match mediaSession s' with
              | Some m =>
                  let h := EasterEggPauseHandler r in
                  let s'' := set_handlerRefs (mediaSessionPlayHandlerRef s')
                               (Some h) s' in
                  set_mediaSession
                    (Some (mkSession (Some EasterEggSound) PSPlaying
                             (playHandler m) (Some h))) s''
              | None => s'
              end
            else s1
        | None => s1
        end in
      let s3 := updTrack Effect
                  (fun e => set_currentTime 0
                              (set_volume (if isMuted r then 0 else 1) e)) s2 in
      play allow Effect s3
  end.

(** Rejection handler of the effect's [play()] promise, lines 479-486.  It
    belongs to the same render as the call, so [wasPlaying] is [isPlaying r]
    and the [resumeBackgroundMusic] it calls reads the same [r]. *)
Definition playEasterEggSound_catch (r : Snapshot) (e : ErrorName)
    (allow : bool) (s : State) : State :=
  let wasPlaying := isPlaying r in
  let s1 := if wasPlaying then resumeBackgroundMusic r allow s else s in
  setEasterEggActive false s1.

(** [clearInterval] of the [n]-th running fade timer. *)
Definition clearInterval (n : nat) (s : State) : State :=
  set_fadeIntervals (firstn n (fadeIntervals s) ++ skipn (S n) (fadeIntervals s)) s.

(** One run of the interval callback of a fade started by the render with
    snapshot [r], lines 504-523; [n] is the timer it has to clear. *)
Definition fadeStep (r : Snapshot) (n : nat) (allow : bool) (s : State) : State :=
  match easterEggSoundRef s with
  | None => setEasterEggActive false (clearInterval n s)
  | Some e =>
      if negb (Qle_bool (volume e) (1#20)) && negb (isMuted r) then
        updTrack Effect (fun a => set_volume (volume a - (1#20)) a) s
      else
        let s1 := pause Effect s in
        let s2 := if negb (isMuted r)
                  then updTrack Effect (set_volume 1) s1 else s1 in
        let s3 := clearInterval n s2 in
        let s4 := resumeBackgroundMusic r allow s3 in
        let s5 := setEasterEggActive false s4 in
        restoreBackgroundMusicMediaSession s5
  end.

(** The 50ms timer fires for the [n]-th running fade. *)
Definition fadeTick (n : nat) (allow : bool) (s : State) : State :=
  match nth_error (fadeIntervals s) n with
  | Some r => fadeStep r n allow s
  | None => s
  end.

(** [stopEasterEggSound] of the render with snapshot [r], lines 500-533.
    With [fadeOut] it only starts the timer. *)
Definition stopEasterEggSound (r : Snapshot) (fadeOut : bool) (allow : bool)
    (s : State) : State :=
  match easterEggSoundRef s with
  | None => s
  | Some _ =>
      if fadeOut then set_fadeIntervals (fadeIntervals s ++ [r]) s
      else
        let s1 := pause Effect s in
        let s2 := updTrack Effect (set_currentTime 0) s1 in
        let s3 := resumeBackgroundMusic r allow s2 in
        let s4 := setEasterEggActive false s3 in
        restoreBackgroundMusicMediaSession s4
  end.

(** [attemptPlayOnInteractionRef.current], lines 143-164. *)
Definition attemptPlayOnInteraction (allow : bool) (s : State) : State :=
  match backgroundMusicRef s with
  | Some _ =>
      if negb (isPlayingRef s) && negb (isMutedRef s)
         && negb (firstToggleDoneRef s)
      then play allow Background s
      else s
  | None => s
  end.

Definition attemptPlayOnInteraction_then (s : State) : State :=
  set_listeners false (playPauseListener s)
    (setPlaybackState PSPlaying (setIsPlaying true s)).

(** A click, keydown or touchstart reaches the document. *)
Definition interaction (allow : bool) (s : State) : State :=
  if interactionListeners s then attemptPlayOnInteraction allow s else s.

(** The 100ms timer of the mount effect, lines 188-221, and the handlers of
    its promise. *)
Definition autoplay (allow : bool) (s : State) : State :=
  match backgroundMusicRef s with
  | Some _ => play allow Background (resumeContextIfSuspended s)
  | None => s
  end.

Definition autoplay_then (s : State) : State :=
  setPlaybackState PSPlaying (setIsPlaying true s).

Definition autoplay_catch (e : ErrorName) (s : State) : State :=
  match e with
  | AbortError => s
  | _ => setPlaybackState PSPaused (setIsPlaying false s)
  end.

(** The operating system invokes an installed media-session handler. *)
Definition runHandler (h : Handler) (allow : bool) (s : State) : State :=
  match h with
  | BackgroundPlayHandler | FallbackPlayHandler =>
      match backgroundMusicRef s with
      | Some b => if paused b then togglePlayPause allow s else s
      | None => s
      end
  | BackgroundPauseHandler =>
      match backgroundMusicRef s with
      | Some b => if negb (paused b) then togglePlayPause allow s else s
      | None => togglePlayPause allow s
      end
  | FallbackPauseHandler =>
      match backgroundMusicRef s with
      | Some b => if negb (paused b) then togglePlayPause allow s else s
      | None => s
      end
  | EasterEggPauseHandler r =>
      match easterEggSoundRef s with
      | Some e => if negb (paused e) then stopEasterEggSound r false allow s else s
      | None => s
      end
  end.

Definition mediaSessionPlay (allow : bool) (s : State) : State :=
  match mediaSession s with
  | Some m =>
      match playHandler m with
      | Some h => runHandler h allow s
      | None => s
      end
  | None => s
  end.

Definition mediaSessionPause (allow : bool) (s : State) : State :=
  match mediaSession s with
  | Some m =>
      match pauseHandler m with
      | Some h => runHandler h allow s
      | None => s
      end
  | None => s
  end.

(** ** Runs *)

(** What can happen to a mounted component, one task at a time.  The exposed
    operations are called through the functions of the latest render.  Promise
    settlements are not tied to an earlier [play()] call: the safety results
    below hold for more runs than a browser produces. *)
Inductive Action :=
| AToggleMute
| ATogglePlayPause (allow : bool)
| APlayEffect (allow : bool)
| AStopEffect (fadeOut allow : bool)
| AResumeBackground (allow : bool)
| ARender (allow : bool)
| ADeliver (allow : bool)
| AInteraction (allow : bool)
| AFadeTick (n : nat) (allow : bool)
| AAutoplay (allow : bool)
| AMediaSessionPlay (allow : bool)
| AMediaSessionPause (allow : bool)
| ATogglePlayRejected (e : ErrorName)
| AResumeFulfilled
| AResumeRejected (e : ErrorName)
| AEffectRejected (r : Snapshot) (e : ErrorName) (allow : bool)
| AInteractionFulfilled
| AAutoplayFulfilled
| AAutoplayRejected (e : ErrorName)
| ATrackEnded.

Definition step (a : Action) (s : State) : State :=
  match a with
  | AToggleMute => toggleMute s
  | ATogglePlayPause allow => togglePlayPause allow s
  | APlayEffect allow => playEasterEggSound (rendered s) allow s
  | AStopEffect fadeOut allow => stopEasterEggSound (rendered s) fadeOut allow s
  | AResumeBackground allow => resumeBackgroundMusic (rendered s) allow s
  | ARender allow => render allow s
  | ADeliver allow => deliver allow s
  | AInteraction allow => interaction allow s
  | AFadeTick n allow => fadeTick n allow s
  | AAutoplay allow => autoplay allow s
  | AMediaSessionPlay allow => mediaSessionPlay allow s
  | AMediaSessionPause allow => mediaSessionPause allow s
  | ATogglePlayRejected e => togglePlayPause_catch e s
  | AResumeFulfilled => resumeBackgroundMusic_then s
  | AResumeRejected e => resumeBackgroundMusic_catch e s
  | AEffectRejected r e allow => playEasterEggSound_catch r e allow s
  | AInteractionFulfilled => attemptPlayOnInteraction_then s
  | AAutoplayFulfilled => autoplay_then s
  | AAutoplayRejected e => autoplay_catch e s
  | ATrackEnded => enqueue Background EvEnded s
  end.

Fixpoint run (acts : list Action) (s : State) : State :=
  match acts with
  | [] => s
  | a :: rest => run rest (step a s)
  end.

(** A mounted component in a browser with a media session whose audio context
    starts suspended. *)
Definition mounted : State := mount Suspended (initial true).

(** The same component once the autoplay of the mount effect went through:
    the browser accepted [play()], the [playing] event was delivered, the
    promise was fulfilled and React committed [isPlaying = true]. *)
Definition autoplayed : State :=
  run [AAutoplay true; ADeliver true; AAutoplayFulfilled; ARender true] mounted.

(** ** Vocabulary of the statements *)

(** Commands that start or stop a track. *)
Definition isTransport (c : Cmd) : bool :=
  match c with
  | Play _ _ | Pause _ _ => true
  | _ => false
  end.

Definition isPlayOf (t : Track) (c : Cmd) : bool :=
  match c, t with
  | Play Background _, Background => true
  | Play Effect _, Effect => true
  | _, _ => false
  end.

Definition isDispatchOf (n : Notification) (c : Cmd) : bool :=
  match c, n with
  | Dispatch AudioMuteToggled, AudioMuteToggled => true
  | Dispatch AudioPlayPauseToggled, AudioPlayPauseToggled => true
  | _, _ => false
  end.

Definition isSetIsMuted (c : Cmd) : bool :=
  match c with
  | SetIsMuted _ => true
  | _ => false
  end.

(** The commands [s'] issued beyond those of [s]. *)
Definition newCmds (s s' : State) : list Cmd :=
  skipn (length (trace s)) (trace s').

(** Some command satisfying [p] occurs strictly before one satisfying [q]. *)
Fixpoint occursBefore (p q : Cmd -> bool) (l : list Cmd) : bool :=
  match l with
  | [] => false
  | c :: rest => (p c && existsb q rest) || occursBefore p q rest
  end.

(** React has committed every state update: the functions of the latest
    render see the stored values. *)
Definition committed (s : State) : Prop := store s = rendered s.

(** The test of line 511 for a fade started by the render with snapshot [r]:
    the next tick lowers the volume instead of ending the fade. *)
Definition fading (r : Snapshot) (s : State) : bool :=
  match easterEggSoundRef s with
  | Some e => negb (Qle_bool (volume e) (1#20)) && negb (isMuted r)
  | None => false
  end.

(** The ticks of one fade up to and including the one that ends it. *)
Fixpoint fade (fuel : nat) (r : Snapshot) (n : nat) (allow : bool)
    (s : State) : option State :=
  match fuel with
  | O => None
  | S k =>
      if fading r s then fade k r n allow (fadeStep r n allow s)
      else Some (fadeStep r n allow s)
  end.

(** [k] consecutive ticks of one fade timer, nothing else running in
    between. *)
Fixpoint fadeTicks (k : nat) (r : Snapshot) (n : nat) (allow : bool)
    (s : State) : State :=
  match k with
  | O => s
  | S k' => fadeTicks k' r n allow (fadeStep r n allow s)
  end.

(** The test of line 511 holds before each of the next [k] ticks. *)
Fixpoint allFading (k : nat) (r : Snapshot) (n : nat) (allow : bool)
    (s : State) : bool :=
  match k with
  | O => true
  | S k' => fading r s && allFading k' r n allow (fadeStep r n allow s)
  end.

(** The volume after [k] times [volume -= 0.05]. *)
Fixpoint lowered (k : nat) (v : Q) : Q :=
  match k with
  | O => v
  | S k' => lowered k' (v - (1#20))
  end.

Definition isPauseCmd (c : Cmd) : bool :=
  match c with
  | Pause _ _ => true
  | _ => false
  end.

(** Unfold the model on a state given by its fields. *)
Ltac evaluate := cbv -[app Qminus Qle_bool Qle Qeq Qlt].

(** Case analysis on the scrutinee of an innermost [match]. *)
Ltac break_match :=
  match goal with
  | |- context [match ?x with _ => _ end] =>
      lazymatch x with
      | context [match _ with _ => _ end] => fail
      | _ => destruct x eqn:?
      end
  end.

(** Equations [firstToggleDoneRef (f s) = firstToggleDoneRef s]. *)
Create Rewrite HintDb ftd.

Ltac frame :=
  intros;
  repeat (first [ progress autorewrite with ftd | progress cbn | break_match ]);
  auto.

(** What the mute effect keeps in step: the background volume, the presence
    of the effect element, and the committed mute flag. *)
Definition muteView (s : State) : option Q * bool * bool :=
  (option_map volume (backgroundMusicRef s),
   match easterEggSoundRef s with Some _ => true | None => false end,
   isMuted (rendered s)).

(** Both elements exist and the background volume is the one the mute effect
    assigns for the committed mute flag. *)
Definition volumeSynced (s : State) : Prop :=
  muteView s
  = (Some (if isMuted (rendered s) then 0 else 1#2), true, isMuted (rendered s)).

(** Equations [muteView (f s) = muteView s]. *)
Create Rewrite HintDb mv.

Ltac frame_op :=
  intros; repeat (first [ progress autorewrite with mv | break_match ]); auto.

(** ** Teardown *)

(** The cleanup function returned by the mount effect, lines 231-271.  React
    runs it only after the mount effect ran, so the refs assigned there
    ([updateMediaSessionStateRef], [attemptPlayOnInteractionRef]) are set and
    the two guards on them reduce to the presence of the media session.
    Disconnecting the source and analyser nodes and closing the context leave
    nothing behind but the cleared refs. *)
Definition cleanup (s : State) : State :=
  let s1 := stopVisualization s in
  let s2 :=
    match backgroundMusicRef s1 with
    | Some _ => set_backgroundMusicRef None (pause Background s1)
    | None => s1
    end in
  let s3 :=
    match easterEggSoundRef s2 with
    | Some _ => set_easterEggSoundRef None (pause Effect s2)
    | None => s2
    end in
  let s4 :=
    match audioContextRef s3 with
    | Some _ => set_audioContextRef None s3
    | None => s3
    end in
  let s5 :=
    match mediaSession s4 with
    | Some m =>
        set_mediaSession
          (Some (mkSession (metadata m) (playbackState m) None None))
          (set_listeners (interactionListeners s4) false s4)
    | None => s4
    end in
  set_listeners false (playPauseListener s5) s5.

(** ** Predicates on states *)

(** The flags an element of track [t] is created with, and a volume the
    [volume] setter accepts. *)
Definition goodElement (t : Track) (a : Audio) : Prop :=
  loop a = match t with Background => true | Effect => false end /\
  0 <= volume a /\ volume a <= 1.

(** Both elements and the audio context exist, and the elements are good. *)
Definition elementsSound (s : State) : Prop :=
  exists b e,
    backgroundMusicRef s = Some b /\
    easterEggSoundRef s = Some e /\
    goodElement Background b /\
    goodElement Effect e /\
    audioContextRef s <> None.

(** What only a render or the fulfilled retry writes: the mirrors of the
    state cells, the committed snapshot, and the registration of the document
    listeners. *)
Definition ctlView (s : State) : bool * bool * Snapshot * bool :=
  (isMutedRef s, isPlayingRef s, rendered s, interactionListeners s).

(** Equations [ctlView (f s) = ctlView s]. *)
Create Rewrite HintDb ctl.

Ltac frame_ctl :=
  intros; repeat (first [ progress autorewrite with ctl | break_match ]); auto.

(** The refs read by the document listener hold the committed values. *)
Definition refsMirror (s : State) : Prop :=
  isMutedRef s = isMuted (rendered s) /\ isPlayingRef s = isPlaying (rendered s).

(** No media event is waiting, React has committed, and the playing flag is
    the transport state of the background element. *)
Definition mirrored (s : State) : Prop :=
  events s = [] /\
  committed s /\
  exists b, backgroundMusicRef s = Some b /\
            isPlaying (store s) = negb (paused b).

(** * Mute *)

(** C2.  [toggleMute] followed by React's commit: the mute flag is flipped;
    when the new value is muted both volumes are 0; when it is unmuted the
    background volume is 0.5 and the effect volume becomes 1.0 exactly when
    the effect is active and its element is not paused, and is left alone
    otherwise; neither element's paused flag changes, no media event is
    queued and no play or pause command is issued. *)
Theorem toggleMute_postcondition : forall allow s b e,
  committed s ->
  backgroundMusicRef s = Some b ->
  easterEggSoundRef s = Some e ->
  let s' := render allow (toggleMute s) in
  let nowMuted := negb (isMuted (store s)) in
  isMuted (store s') = nowMuted /\
  isMuted (rendered s') = nowMuted /\
  backgroundMusicRef s' = Some (set_volume (if nowMuted then 0 else 1#2) b) /\
  easterEggSoundRef s' =
    Some (if nowMuted then set_volume 0 e
          else if easterEggActive (store s) && negb (paused e)
               then set_volume 1 e else e) /\
  option_map paused (backgroundMusicRef s') = Some (paused b) /\
  option_map paused (easterEggSoundRef s') = Some (paused e) /\
  events s' = events s /\
  exists cmds, trace s' = trace s ++ cmds /\ existsb isTransport cmds = false.
Proof.
  intros allow s b e Hs Hb He.
  destruct s as [st rd bg egg ctx ftd mr pr plh pah ms il ppl vis fi ev tr].
  unfold committed in Hs. simpl in Hs, Hb, He. subst rd bg egg.
  destruct st as [m p a].
  destruct m, p, a, e as [[|] ve le te], ctx as [[| |]|]; evaluate;
    repeat split; rewrite <- ?app_assoc; eauto.
Qed.

Lemma toggleMute_postcondition_witness :
  committed mounted /\
  isMuted (store (render true (toggleMute mounted))) = true.
Proof.
  split; [reflexivity|].
  exact (proj1 (toggleMute_postcondition true mounted
                  (mkAudio true (1#2) true 0) (mkAudio true 1 false 0)
                  eq_refl eq_refl eq_refl)).
Defined.

(** C1 as stated fails: on the freshly mounted component the effect element is
    idle at volume 1; muting sets it to 0 and unmuting leaves it there,
    because the effect is not active. *)
Lemma mute_twice_effect_volume_counterexample :
  let s := mounted in
  let s2 := render true (toggleMute (render true (toggleMute s))) in
  option_map volume (easterEggSoundRef s) = Some 1 /\
  option_map volume (easterEggSoundRef s2) = Some 0 /\
  ~ (0 == 1).
Proof. repeat split. intro H; discriminate H. Qed.

(** C1 amended.  From a committed state whose background volume agrees with
    the mute flag, two successive [toggleMute] calls give back the background
    element unchanged (volume and transport), keep the effect element's paused
    flag, issue no play or pause, and leave the effect volume at 0 if the
    state was muted, at 1.0 if it was unmuted with the effect active and not
    paused, and at 0 otherwise. *)
Theorem toggleMute_twice : forall a1 a2 s b e,
  committed s ->
  backgroundMusicRef s = Some b ->
  easterEggSoundRef s = Some e ->
  volume b = (if isMuted (store s) then 0 else 1#2) ->
  let s2 := render a2 (toggleMute (render a1 (toggleMute s))) in
  backgroundMusicRef s2 = Some b /\
  easterEggSoundRef s2 =
    Some (set_volume
            (if isMuted (store s) then 0
             else if easterEggActive (store s) && negb (paused e) then 1 else 0)
            e) /\
  store s2 = store s /\
  events s2 = events s /\
  exists cmds, trace s2 = trace s ++ cmds /\ existsb isTransport cmds = false.
Proof.
  intros a1 a2 s b e Hs Hb He Hv.
  destruct s as [st rd bg egg ctx ftd mr pr plh pah ms il ppl vis fi ev tr].
  unfold committed in Hs. simpl in Hs, Hb, He, Hv. subst rd bg egg.
  destruct st as [m p a], b as [pb vb lb tb]. simpl in Hv. subst vb.
  destruct m, p, a, pb, e as [[|] ve le te], ctx as [[| |]|]; evaluate;
    repeat split; rewrite <- ?app_assoc; eauto.
Qed.

Lemma toggleMute_twice_witness :
  committed autoplayed /\
  backgroundMusicRef
    (render true (toggleMute (render true (toggleMute autoplayed))))
  = backgroundMusicRef autoplayed.
Proof.
  split; [reflexivity|].
  exact (proj1 (toggleMute_twice true true autoplayed
                  (mkAudio false (1#2) true 0) (mkAudio true 1 false 0)
                  eq_refl eq_refl eq_refl eq_refl)).
Defined.

(** * resumeBackgroundMusic *)

(** C3.  When the playing flag read by [resumeBackgroundMusic] is false, or the
    background element is not paused, the call returns the state it was given:
    nothing changes and nothing is added to the trace, in particular no play
    request.  A second call right after one the browser accepted is such a
    call. *)
Theorem resumeBackgroundMusic_idempotent : forall r allow s,
  isPlaying r = false \/
  (exists b, backgroundMusicRef s = Some b /\ paused b = false) ->
  resumeBackgroundMusic r allow s = s /\
  forall r' allow',
    resumeBackgroundMusic r' allow' (resumeBackgroundMusic r' true s)
    = resumeBackgroundMusic r' true s.
Proof.
  intros r allow s H. split.
  - unfold resumeBackgroundMusic.
    destruct (backgroundMusicRef s) as [b|] eqn:Hb; [|reflexivity].
    destruct H as [H | (b' & Hb' & Hp)].
    + rewrite H. reflexivity.
    + injection Hb' as ->. rewrite Hp. destruct (isPlaying r); reflexivity.
  - intros r' allow'.
    destruct s as [st rd bg egg ctx ftd mr pr plh pah ms il ppl vis fi ev tr].
    destruct bg as [[pb vb lb tb]|]; [|reflexivity].
    destruct r' as [m [|] a]; [|reflexivity].
    destruct pb; [|reflexivity].
    destruct lb, ctx as [[| |]|]; vm_compute; reflexivity.
Qed.

Lemma resumeBackgroundMusic_idempotent_witness :
  resumeBackgroundMusic (rendered autoplayed) true autoplayed = autoplayed.
Proof.
  exact (proj1 (resumeBackgroundMusic_idempotent (rendered autoplayed) true
                  autoplayed
                  (or_intror (ex_intro _ (mkAudio false (1#2) true 0)
                                (conj eq_refl eq_refl))))).
Defined.

(** C4.  Called with the playing flag set and the background element paused,
    [resumeBackgroundMusic] has the loop flag true on the element when it calls
    [play()], resumes the audio context first if it was suspended, issues
    exactly that, and leaves the element playing when the browser accepts the
    request.  The rejection handler of the promise clears the playing flag for
    every error other than [AbortError] and does nothing for [AbortError]. *)
Theorem resumeBackgroundMusic_recovery : forall r allow s b,
  isPlaying r = true ->
  backgroundMusicRef s = Some b ->
  paused b = true ->
  let s' := resumeBackgroundMusic r allow s in
  let b' := set_loop true b in
  loop b' = true /\
  trace s' =
    trace s
    ++ match audioContextRef s with
       | Some Suspended => [ResumeContext]
       | _ => []
       end
    ++ [Play Background b'] /\
  backgroundMusicRef s' = Some (set_paused (negb allow) b') /\
  (audioContextRef s = Some Suspended -> audioContextRef s' = Some Running) /\
  (forall e t,
     e <> AbortError ->
     isPlaying (store (resumeBackgroundMusic_catch e t)) = false /\
     trace (resumeBackgroundMusic_catch e t) = trace t ++ [SetIsPlaying false]) /\
  (forall t, resumeBackgroundMusic_catch AbortError t = t).
Proof.
  intros r allow s b Hr Hb Hp.
  destruct s as [st rd bg egg ctx ftd mr pr plh pah ms il ppl vis fi ev tr].
  destruct r as [m p a], b as [pb vb lb tb].
  simpl in Hr, Hb, Hp. subst p bg pb.
  split; [reflexivity|]. split; [|split; [|split; [|split]]].
  - destruct lb, allow, ctx as [[| |]|]; evaluate;
      rewrite <- ?app_assoc; reflexivity.
  - destruct lb, allow, ctx as [[| |]|]; reflexivity.
  - intros Hc. simpl in Hc. subst ctx. destruct lb, allow; reflexivity.
  - intros e t He.
    destruct e; try congruence;
      unfold resumeBackgroundMusic_catch, setPlaybackState;
      destruct (mediaSession (setIsPlaying false t)); split; reflexivity.
  - reflexivity.
Qed.

Lemma resumeBackgroundMusic_recovery_witness :
  isPlaying (mkSnapshot false true false) = true /\
  backgroundMusicRef (resumeBackgroundMusic (mkSnapshot false true false) true
                        (initEffect Suspended (initial true)))
  = Some (mkAudio false (1#2) true 0) /\
  audioContextRef (resumeBackgroundMusic (mkSnapshot false true false) true
                     (initEffect Suspended (initial true)))
  = Some Running.
Proof.
  split; [reflexivity|].
  pose proof (resumeBackgroundMusic_recovery (mkSnapshot false true false) true
                (initEffect Suspended (initial true))
                (mkAudio true (1#2) true 0) eq_refl eq_refl eq_refl)
    as (_ & _ & H3 & H4 & _).
  split; [exact H3 | exact (H4 eq_refl)].
Defined.

(** * The effect track *)




(** C6, the code at a failing input.  The background plays after a successful
    autoplay.  [playEasterEggSound] pauses it; the [pause] event of that very
    pause sets [isPlaying] to false and React commits it.  The
    [stopEasterEggSound(false)] of the latest render then calls a
    [resumeBackgroundMusic] that reads [isPlaying = false] and returns at its
    first guard: no play request is issued and the background stays paused.
    The order in which the commit for [easterEggActive] and the delivery of
    the event happen makes no difference. *)
Theorem effect_round_trip_loses_background :
  let s0 := autoplayed in
  let s1 := run [APlayEffect true; ARender true; ADeliver true; ARender true] s0 in
  let s1' := run [APlayEffect true; ADeliver true; ARender true] s0 in
  let s2 := run [AStopEffect false true; ARender true] s1 in
  let s2' := run [AStopEffect false true; ARender true] s1' in
  isPlaying (rendered s0) = true /\
  option_map paused (backgroundMusicRef s0) = Some false /\
  option_map paused (backgroundMusicRef s2) = Some true /\
  option_map paused (backgroundMusicRef s2') = Some true /\
  existsb (isPlayOf Background) (newCmds s1 s2) = false /\
  existsb (isPlayOf Background) (newCmds s1' s2') = false /\
  isPlaying (rendered s2) = false /\
  events s2 = [(Effect, EvPlaying); (Effect, EvPause)].
Proof. vm_compute. repeat split. Qed.

(** The paths that still read the flag of the render in which the effect was
    started do resume the background: a [stopEasterEggSound(false)] called
    before React re-rendered, and the media-session pause handler installed by
    [playEasterEggSound]. *)
Lemma effect_round_trip_stale_closure_resumes :
  let s0 := autoplayed in
  let viaSameRender := run [APlayEffect true; AStopEffect false true] s0 in
  let viaMediaSession :=
    run [APlayEffect true; ARender true; ADeliver true; ARender true;
         AMediaSessionPause true] s0 in
  option_map paused (backgroundMusicRef viaSameRender) = Some false /\
  option_map paused (backgroundMusicRef viaMediaSession) = Some false.
Proof. vm_compute. split; reflexivity. Qed.

(** The loss is not tied to that input: once the committed playing flag is
    false, [stopEasterEggSound(false)] of that render never issues a play
    request for the background and never changes its paused flag. *)
Lemma stopEasterEggSound_after_pause_event : forall allow s b g,
  backgroundMusicRef s = Some b ->
  easterEggSoundRef s = Some g ->
  isPlaying (rendered s) = false ->
  let s' := stopEasterEggSound (rendered s) false allow s in
  backgroundMusicRef s' = Some b /\
  trace s' = trace s ++ [Pause Effect g; SetEasterEggActive false].
Proof.
  intros allow s b g Hb Hg Hr.
  destruct s as [st rd bg egg ctx ftd mr pr plh pah ms il ppl vis fi ev tr].
  destruct rd as [m p a]. simpl in Hb, Hg, Hr. subst bg egg p.
  destruct g as [[|] vg lg tg], ms as [[md ps h1 h2]|], plh, pah, b as [[|] vb lb tb];
    evaluate; rewrite <- ?app_assoc; split; reflexivity.
Qed.

(** * Fade-out *)

Lemma fade_bound_step : forall (v : Q) (k : nat),
  v <= (Z.of_nat (S k) + 1) # 20 -> v - (1#20) <= (Z.of_nat k + 1) # 20.
Proof.
  intros [vn vd] k. rewrite Nat2Z.inj_succ.
  generalize (Z.of_nat k). intros z.
  unfold Qle, Qminus, Qplus, Qopp. cbn [Qnum Qden]. intros H.
  rewrite !Pos2Z.inj_mul. lia.
Qed.

Lemma fadeStep_lowers : forall r n allow s e,
  easterEggSoundRef s = Some e ->
  fading r s = true ->
  fadeStep r n allow s
  = set_easterEggSoundRef (Some (set_volume (volume e - (1#20)) e)) s.
Proof.
  intros r n allow s e He Hf. unfold fading in Hf. unfold fadeStep, updTrack.
  simpl getTrack. rewrite He in *. rewrite Hf. reflexivity.
Qed.

Lemma fade_terminates : forall k r n allow s e,
  easterEggSoundRef s = Some e ->
  volume e <= (Z.of_nat k + 1) # 20 ->
  exists s_end, fade (S k) r n allow s = Some s_end.
Proof.
  induction k as [|k IH]; intros r n allow s e He Hv.
  - simpl. destruct (fading r s) eqn:Hf; [|eauto].
    exfalso. unfold fading in Hf. rewrite He in Hf.
    apply Qle_bool_iff in Hv. simpl in Hv. rewrite Hv in Hf. discriminate Hf.
  - change (fade (S (S k)) r n allow s)
      with (if fading r s then fade (S k) r n allow (fadeStep r n allow s)
            else Some (fadeStep r n allow s)).
    destruct (fading r s) eqn:Hf; [|eauto].
    rewrite (fadeStep_lowers r n allow s e He Hf).
    apply (IH r n allow _ (set_volume (volume e - (1#20)) e)); [reflexivity|].
    simpl. apply fade_bound_step. exact Hv.
Qed.

(** C7 as stated fails.  Mute, start the effect, call [stopEasterEggSound(true)]
    (its timer callback captures [isMuted = true]), unmute before the first
    tick: the mute effect raises the playing effect to volume 1.0, and the
    tick, still reading the captured flag, pauses it at that volume. *)
Lemma fade_pause_above_floor_counterexample :
  let s := run [AToggleMute; ARender true; APlayEffect true; ARender true;
                AStopEffect true true; AToggleMute; ARender true] mounted in
  newCmds s (step (AFadeTick 0 true) s)
  = [Pause Effect (mkAudio false 1 false 0); SetEasterEggActive false]
  /\ ~ (1 <= 1#20).
Proof. split; [vm_compute; reflexivity | intro H; vm_compute in H; apply H; reflexivity]. Qed.

(** What [k] decrements amount to. *)
Lemma lowered_value : forall k v,
  lowered k v == v - (Z.of_nat k # 20) /\ lowered k v <= v.
Proof.
  induction k as [|k IH]; intros v.
  - split.
    + unfold lowered, Qeq, Qminus, Qplus, Qopp. destruct v as [vn vd].
      cbn [Qnum Qden Z.of_nat]. rewrite !Pos2Z.inj_mul. lia.
    + apply Qle_refl.
  - destruct (IH (v - (1#20))) as [He Hl]. cbn [lowered]. split.
    + rewrite He. rewrite Nat2Z.inj_succ. generalize (Z.of_nat k). intros z.
      unfold Qeq, Qminus, Qplus, Qopp. destruct v as [vn vd].
      cbn [Qnum Qden]. rewrite !Pos2Z.inj_mul. lia.
    + eapply Qle_trans; [exact Hl|].
      unfold Qle, Qminus, Qplus, Qopp. destruct v as [vn vd].
      cbn [Qnum Qden]. rewrite !Pos2Z.inj_mul. nia.
Qed.

Lemma lowered_step : forall k v, lowered (S k) v <= lowered k v.
Proof.
  intros k v. cbn [lowered].
  destruct (lowered_value k (v - (1#20))) as [He _].
  destruct (lowered_value k v) as [He' _].
  rewrite He, He'. generalize (Z.of_nat k). intros z.
  unfold Qle, Qminus, Qplus, Qopp. destruct v as [vn vd].
  cbn [Qnum Qden]. rewrite !Pos2Z.inj_mul. nia.
Qed.

(** While the test holds, [k] ticks only write the effect volume. *)
Lemma fadeTicks_fading : forall k r n allow s e,
  easterEggSoundRef s = Some e ->
  allFading k r n allow s = true ->
  easterEggSoundRef (fadeTicks k r n allow s)
  = Some (set_volume (lowered k (volume e)) e) /\
  trace (fadeTicks k r n allow s) = trace s /\
  fadeIntervals (fadeTicks k r n allow s) = fadeIntervals s /\
  backgroundMusicRef (fadeTicks k r n allow s) = backgroundMusicRef s.
Proof.
  induction k as [|k IH]; intros r n allow s e He Hf.
  - cbn [fadeTicks lowered]. rewrite He. destruct e; repeat split.
  - cbn [allFading] in Hf. apply andb_prop in Hf. destruct Hf as [Hf Hk].
    cbn [fadeTicks lowered].
    rewrite (fadeStep_lowers r n allow s e He Hf) in *.
    destruct (IH r n allow
                (set_easterEggSoundRef
                   (Some (set_volume (volume e - (1#20)) e)) s)
                (set_volume (volume e - (1#20)) e) eq_refl Hk)
      as (H1 & H2 & H3 & H4).
    rewrite H1, H2, H3, H4. repeat split.
Qed.

(** A fade that ends is a run of ticks for which the test holds, followed by
    the first tick for which it does not. *)
Lemma fade_as_ticks : forall fuel r n allow s t,
  fade fuel r n allow s = Some t ->
  exists j,
    (j < fuel)%nat /\
    allFading j r n allow s = true /\
    fading r (fadeTicks j r n allow s) = false /\
    t = fadeStep r n allow (fadeTicks j r n allow s).
Proof.
  induction fuel as [|k IH]; intros r n allow s t H; [discriminate H|].
  cbn [fade] in H. destruct (fading r s) eqn:Hf.
  - destruct (IH r n allow _ t H) as (j & Hj & Ha & Hl & Ht).
    exists (S j). cbn [allFading fadeTicks]. rewrite Hf.
    repeat split; try assumption. lia.
  - injection H as <-. exists 0%nat. cbn [allFading fadeTicks].
    repeat split; try assumption. lia.
Qed.

(** The tick for which the test fails issues the pause first, on the element
    as it finds it, and no other pause. *)
Lemma fadeStep_last_trace : forall r n allow s e,
  easterEggSoundRef s = Some e ->
  fading r s = false ->
  (exists rest,
     trace (fadeStep r n allow s) = trace s ++ Pause Effect e :: rest /\
     existsb isPauseCmd rest = false) /\
  (isMuted r = false -> volume e <= 1#20).
Proof.
  intros r n allow s e He Hf.
  destruct s as [st rd bg egg ctx ftd mr pr plh pah ms il ppl vis fi ev tr].
  destruct r as [m p a], e as [pe ve le te].
  simpl in He. subst egg. unfold fading in Hf.
  cbn [easterEggSoundRef volume isMuted] in Hf.
  split.
  - unfold fadeStep. cbn [easterEggSoundRef volume isMuted]. rewrite Hf.
    destruct m, p, pe, bg as [[[|] vb [|] tb]|], ctx as [[| |]|], allow, ms;
      evaluate; rewrite <- ?app_assoc; eexists; split; reflexivity.
  - cbn [isMuted volume]. intros Hm. rewrite Hm in Hf.
    rewrite andb_true_r in Hf.
    apply negb_false_iff in Hf. apply Qle_bool_iff. exact Hf.
Qed.

(** C7 amended.  For an existing effect element [e] and the ticks of one fade
    timer:
    - a tick taken while the test of the callback holds (volume above 0.05,
      captured mute flag false) lowers the volume by one decrement of 0.05,
      so it does not increase, and issues no command;
    - the tick for which the test fails issues the pause on the element as it
      is, with the volume at or below 0.05 unless the captured mute flag is
      set, and clears its timer;
    - over [k] consecutive ticks for which the test holds the volume is the
      starting volume minus [k] decrements, each value at most the one
      before, and the trace is unchanged, so no pause has been issued;
    - a fade that ends consists of such ticks followed by one tick that
      issues the pause, once, as its first command; with the captured mute
      flag false the volume is then at or below 0.05;
    - the fade does end: [k + 1] ticks are enough from a volume of at most
      [(k + 1) * 0.05]. *)
Theorem fade_out_monotone : forall r n allow s e,
  easterEggSoundRef s = Some e ->
  let s' := fadeStep r n allow s in
  (fading r s = true ->
     easterEggSoundRef s' = Some (set_volume (volume e - (1#20)) e) /\
     volume e - (1#20) <= volume e /\
     trace s' = trace s /\
     fadeIntervals s' = fadeIntervals s) /\
  (fading r s = false ->
     (exists rest, trace s' = trace s ++ Pause Effect e :: rest) /\
     (isMuted r = false -> volume e <= 1#20) /\
     fadeIntervals s' = firstn n (fadeIntervals s) ++ skipn (S n) (fadeIntervals s)) /\
  (forall k,
     allFading k r n allow s = true ->
     easterEggSoundRef (fadeTicks k r n allow s)
     = Some (set_volume (lowered k (volume e)) e) /\
     lowered k (volume e) == volume e - (Z.of_nat k # 20) /\
     lowered k (volume e) <= volume e /\
     lowered (S k) (volume e) <= lowered k (volume e) /\
     trace (fadeTicks k r n allow s) = trace s) /\
  (forall fuel t,
     fade fuel r n allow s = Some t ->
     exists j,
       (j < fuel)%nat /\
       allFading j r n allow s = true /\
       t = fadeStep r n allow (fadeTicks j r n allow s) /\
       (exists rest,
          trace t
          = trace s
            ++ Pause Effect (set_volume (lowered j (volume e)) e) :: rest /\
          existsb isPauseCmd rest = false) /\
       (isMuted r = false -> lowered j (volume e) <= 1#20)) /\
  (forall k, volume e <= (Z.of_nat k + 1) # 20 ->
     exists s_end, fade (S k) r n allow s = Some s_end).
Proof.
  intros r n allow s e He. split; [|split; [|split; [|split]]].
  - intros Hf. cbv zeta. rewrite (fadeStep_lowers r n allow s e He Hf).
    repeat split.
    destruct (volume e) as [vn vd]. unfold Qle, Qminus, Qplus, Qopp.
    simpl Qnum. simpl Qden. rewrite !Pos2Z.inj_mul. nia.
  - intros Hf.
    destruct (fadeStep_last_trace r n allow s e He Hf)
      as ((rest & Ht & _) & Hv).
    split; [exists rest; exact Ht|]. split; [exact Hv|].
    destruct s as [st rd bg egg ctx ftd mr pr plh pah ms il ppl vis fi ev tr].
    destruct r as [m p a], e as [pe ve le te].
    simpl in He. subst egg. unfold fading in Hf.
    cbn [easterEggSoundRef volume isMuted] in Hf.
    unfold fadeStep. cbn [easterEggSoundRef volume isMuted]. rewrite Hf.
    destruct m, p, pe, bg as [[[|] vb [|] tb]|], ctx as [[| |]|], allow, ms;
      reflexivity.
  - intros k Hk.
    destruct (fadeTicks_fading k r n allow s e He Hk) as (H1 & H2 & _ & _).
    destruct (lowered_value k (volume e)) as [Hq Hl].
    split; [exact H1|]. split; [exact Hq|]. split; [exact Hl|].
    split; [apply lowered_step|exact H2].
  - intros fuel t Hfade.
    destruct (fade_as_ticks fuel r n allow s t Hfade)
      as (j & Hj & Ha & Hl & Ht).
    destruct (fadeTicks_fading j r n allow s e He Ha) as (H1 & H2 & _ & _).
    destruct (fadeStep_last_trace r n allow _ _ H1 Hl)
      as ((rest & Hr & Hp) & Hv).
    exists j. split; [exact Hj|]. split; [exact Ha|]. split; [exact Ht|].
    split.
    + exists rest. rewrite Ht, Hr, H2. split; [reflexivity|exact Hp].
    + exact Hv.
  - intros k Hv. exact (fade_terminates k r n allow s e He Hv).
Qed.

Lemma fade_out_monotone_witness :
  exists s_end,
    fade 20 (rendered autoplayed) 0 true
      (run [APlayEffect true; AStopEffect true true] autoplayed)
    = Some s_end.
Proof.
  refine (proj2 (proj2 (proj2 (proj2
            (fade_out_monotone (rendered autoplayed) 0 true
               (run [APlayEffect true; AStopEffect true true] autoplayed)
               (mkAudio false 1 false 0) eq_refl)))) 19%nat _).
  vm_compute. discriminate.
Defined.

(** Another operation between two ticks can raise the volume: a new
    [playEasterEggSound] during a fade sets it back to 1.0, and the fade goes
    on from there.  The ticks themselves never raise it. *)
Lemma fade_retrigger_raises_volume :
  let s := run [APlayEffect true; ARender true; ADeliver true; ARender true;
                AStopEffect true true;
                AFadeTick 0 true; AFadeTick 0 true; AFadeTick 0 true;
                AFadeTick 0 true; AFadeTick 0 true] autoplayed in
  let s1 := step (APlayEffect true) s in
  let s2 := step (AFadeTick 0 true) s1 in
  option_map (fun e => Qeq_bool (volume e) (3#4)) (easterEggSoundRef s)
  = Some true /\
  option_map (fun e => Qeq_bool (volume e) 1) (easterEggSoundRef s1)
  = Some true /\
  option_map (fun e => Qeq_bool (volume e) (19#20)) (easterEggSoundRef s2)
  = Some true /\
  existsb isPauseCmd (newCmds s s2) = false.
Proof. vm_compute. repeat split. Qed.

(** * The first-toggle flag *)

(** Nothing but [togglePlayPause] writes [firstToggleDoneRef], and it only
    ever writes [true]. *)
Lemma ftd_emit c s : firstToggleDoneRef (emit c s) = firstToggleDoneRef s.
Proof. reflexivity. Qed.
Lemma ftd_enqueue t e s : firstToggleDoneRef (enqueue t e s) = firstToggleDoneRef s.
Proof. reflexivity. Qed.
Lemma ftd_setTrack t a s : firstToggleDoneRef (setTrack t a s) = firstToggleDoneRef s.
Proof. destruct t; reflexivity. Qed.
#[local] Hint Rewrite ftd_emit ftd_enqueue ftd_setTrack : ftd.
Lemma ftd_updTrack t f s : firstToggleDoneRef (updTrack t f s) = firstToggleDoneRef s.
Proof. unfold updTrack. frame. Qed.
#[local] Hint Rewrite ftd_updTrack : ftd.
Lemma ftd_pause t s : firstToggleDoneRef (pause t s) = firstToggleDoneRef s.
Proof. unfold pause. frame. Qed.
Lemma ftd_play a t s : firstToggleDoneRef (play a t s) = firstToggleDoneRef s.
Proof. unfold play. frame. Qed.
Lemma ftd_resumeContextIfSuspended s :
  firstToggleDoneRef (resumeContextIfSuspended s) = firstToggleDoneRef s.
Proof. unfold resumeContextIfSuspended. frame. Qed.
Lemma ftd_setPlaybackState p s :
  firstToggleDoneRef (setPlaybackState p s) = firstToggleDoneRef s.
Proof. unfold setPlaybackState. frame. Qed.
Lemma ftd_setIsMuted f s : firstToggleDoneRef (setIsMuted f s) = firstToggleDoneRef s.
Proof. reflexivity. Qed.
Lemma ftd_setIsPlaying b s : firstToggleDoneRef (setIsPlaying b s) = firstToggleDoneRef s.
Proof. reflexivity. Qed.
Lemma ftd_setEasterEggActive b s :
  firstToggleDoneRef (setEasterEggActive b s) = firstToggleDoneRef s.
Proof. reflexivity. Qed.
#[local] Hint Rewrite ftd_pause ftd_play ftd_resumeContextIfSuspended
  ftd_setPlaybackState ftd_setIsMuted ftd_setIsPlaying ftd_setEasterEggActive : ftd.
Lemma ftd_updateMediaSessionState r s :
  firstToggleDoneRef (updateMediaSessionState r s) = firstToggleDoneRef s.
Proof. unfold updateMediaSessionState. frame. Qed.
#[local] Hint Rewrite ftd_updateMediaSessionState : ftd.
Lemma ftd_dispatch n s : firstToggleDoneRef (dispatch n s) = firstToggleDoneRef s.
Proof. unfold dispatch, updateMediaSessionState. frame. Qed.
#[local] Hint Rewrite ftd_dispatch : ftd.
Lemma ftd_render a s : firstToggleDoneRef (render a s) = firstToggleDoneRef s.
Proof. unfold render, playPauseEffect, muteEffect, refSyncEffect. frame. Qed.
Lemma ftd_deliver a s : firstToggleDoneRef (deliver a s) = firstToggleDoneRef s.
Proof.
  unfold deliver, onPlaying, onPause, onEnded, startVisualization,
    stopVisualization. frame.
Qed.
Lemma ftd_toggleMute s : firstToggleDoneRef (toggleMute s) = firstToggleDoneRef s.
Proof. unfold toggleMute. frame. Qed.
Lemma ftd_togglePlayPause a s :
  firstToggleDoneRef (togglePlayPause a s)
  = match backgroundMusicRef s with
    | Some _ => true
    | None => firstToggleDoneRef s
    end.
Proof. unfold togglePlayPause. frame. Qed.
Lemma ftd_togglePlayPause_catch e s :
  firstToggleDoneRef (togglePlayPause_catch e s) = firstToggleDoneRef s.
Proof. unfold togglePlayPause_catch. frame. Qed.
Lemma ftd_resumeBackgroundMusic r a s :
  firstToggleDoneRef (resumeBackgroundMusic r a s) = firstToggleDoneRef s.
Proof. unfold resumeBackgroundMusic. frame. Qed.
Lemma ftd_resumeBackgroundMusic_then s :
  firstToggleDoneRef (resumeBackgroundMusic_then s) = firstToggleDoneRef s.
Proof. unfold resumeBackgroundMusic_then. frame. Qed.
Lemma ftd_resumeBackgroundMusic_catch e s :
  firstToggleDoneRef (resumeBackgroundMusic_catch e s) = firstToggleDoneRef s.
Proof. unfold resumeBackgroundMusic_catch. frame. Qed.
Lemma ftd_restoreBackgroundMusicMediaSession s :
  firstToggleDoneRef (restoreBackgroundMusicMediaSession s) = firstToggleDoneRef s.
Proof. unfold restoreBackgroundMusicMediaSession. frame. Qed.
#[local] Hint Rewrite ftd_render ftd_deliver ftd_toggleMute ftd_togglePlayPause
  ftd_togglePlayPause_catch ftd_resumeBackgroundMusic
  ftd_resumeBackgroundMusic_then ftd_resumeBackgroundMusic_catch
  ftd_restoreBackgroundMusicMediaSession : ftd.
Lemma ftd_playEasterEggSound r a s :
  firstToggleDoneRef (playEasterEggSound r a s) = firstToggleDoneRef s.
Proof. unfold playEasterEggSound. frame. Qed.
Lemma ftd_playEasterEggSound_catch r e a s :
  firstToggleDoneRef (playEasterEggSound_catch r e a s) = firstToggleDoneRef s.
Proof. unfold playEasterEggSound_catch. frame. Qed.
Lemma ftd_fadeTick n a s : firstToggleDoneRef (fadeTick n a s) = firstToggleDoneRef s.
Proof. unfold fadeTick, fadeStep, clearInterval. frame. Qed.
Lemma ftd_stopEasterEggSound r f a s :
  firstToggleDoneRef (stopEasterEggSound r f a s) = firstToggleDoneRef s.
Proof. unfold stopEasterEggSound. frame. Qed.
Lemma ftd_interaction a s : firstToggleDoneRef (interaction a s) = firstToggleDoneRef s.
Proof. unfold interaction, attemptPlayOnInteraction. frame. Qed.
Lemma ftd_attemptPlayOnInteraction_then s :
  firstToggleDoneRef (attemptPlayOnInteraction_then s) = firstToggleDoneRef s.
Proof. unfold attemptPlayOnInteraction_then. frame. Qed.
Lemma ftd_autoplay a s : firstToggleDoneRef (autoplay a s) = firstToggleDoneRef s.
Proof. unfold autoplay. frame. Qed.
Lemma ftd_autoplay_then s : firstToggleDoneRef (autoplay_then s) = firstToggleDoneRef s.
Proof. unfold autoplay_then. frame. Qed.
Lemma ftd_autoplay_catch e s :
  firstToggleDoneRef (autoplay_catch e s) = firstToggleDoneRef s.
Proof. unfold autoplay_catch. frame. Qed.
#[local] Hint Rewrite ftd_playEasterEggSound ftd_playEasterEggSound_catch
  ftd_fadeTick ftd_stopEasterEggSound ftd_interaction
  ftd_attemptPlayOnInteraction_then ftd_autoplay ftd_autoplay_then
  ftd_autoplay_catch : ftd.

Lemma firstToggleDone_runHandler : forall h a s,
  firstToggleDoneRef s = true -> firstToggleDoneRef (runHandler h a s) = true.
Proof. intros h a s H. unfold runHandler. frame. Qed.

Lemma firstToggleDone_step : forall a s,
  firstToggleDoneRef s = true -> firstToggleDoneRef (step a s) = true.
Proof.
  intros a s H.
  destruct a; unfold step, mediaSessionPlay, mediaSessionPause; frame;
    auto using firstToggleDone_runHandler.
Qed.

Lemma firstToggleDone_run : forall acts s,
  firstToggleDoneRef s = true -> firstToggleDoneRef (run acts s) = true.
Proof.
  induction acts as [|a acts IH]; intros s H; simpl; [exact H|].
  apply IH. apply firstToggleDone_step. exact H.
Qed.

Lemma interaction_after_first_toggle : forall a s,
  firstToggleDoneRef s = true -> interaction a s = s.
Proof.
  intros a s H. unfold interaction, attemptPlayOnInteraction.
  rewrite H. rewrite andb_false_r.
  destruct (interactionListeners s), (backgroundMusicRef s); reflexivity.
Qed.

(** Once the flag is set, the document listener is inert for the rest of the
    run. *)
Lemma interaction_inert_along_run : forall acts a s,
  firstToggleDoneRef s = true ->
  firstToggleDoneRef (run acts s) = true /\
  interaction a (run acts s) = run acts s.
Proof.
  intros acts a s H.
  pose proof (firstToggleDone_run acts s H) as Hrun.
  split; [exact Hrun|]. apply interaction_after_first_toggle. exact Hrun.
Qed.

Lemma togglePlayPause_uninitialised : forall allow s,
  backgroundMusicRef s = None -> togglePlayPause allow s = s.
Proof. intros allow s H. unfold togglePlayPause. rewrite H. reflexivity. Qed.

(** C8.  With the background element playing and no toggle made so far, the
    call of [togglePlayPause] itself pauses the element, requests
    [isPlaying = false], sets the first-toggle flag and emits the
    notification, while the [pause] event of the element is still waiting in
    the queue; and after any further run of the component a click, keydown or
    touchstart on the document changes nothing, so it issues no play
    request. *)
Theorem first_toggle_pause : forall allow s b,
  backgroundMusicRef s = Some b ->
  paused b = false ->
  firstToggleDoneRef s = false ->
  let s' := togglePlayPause allow s in
  backgroundMusicRef s' = Some (set_paused true b) /\
  isPlaying (store s') = false /\
  firstToggleDoneRef s' = true /\
  trace s' =
    trace s ++ [Pause Background b; SetIsPlaying false;
                Dispatch AudioPlayPauseToggled] /\
  events s' = events s ++ [(Background, EvPause)] /\
  forall acts a, interaction a (run acts s') = run acts s'.
Proof.
  intros allow s b Hb Hp Hf.
  assert (Hdone : firstToggleDoneRef (togglePlayPause allow s) = true)
    by (rewrite ftd_togglePlayPause, Hb; reflexivity).
  cbv zeta.
  assert (Hcall :
    backgroundMusicRef (togglePlayPause allow s) = Some (set_paused true b) /\
    isPlaying (store (togglePlayPause allow s)) = false /\
    trace (togglePlayPause allow s) =
      trace s ++ [Pause Background b; SetIsPlaying false;
                  Dispatch AudioPlayPauseToggled] /\
    events (togglePlayPause allow s) = events s ++ [(Background, EvPause)]).
  { clear Hdone.
    destruct s as [st rd bg egg ctx ftd mr pr plh pah ms il ppl vis fi ev tr].
    destruct b as [pb vb lb tb]. simpl in Hb, Hp, Hf. subst bg pb ftd.
    destruct ms, ppl; evaluate; rewrite <- ?app_assoc; repeat split. }
  destruct Hcall as (H1 & H2 & H3 & H4).
  repeat (split; [assumption|]).
  intros acts a. exact (proj2 (interaction_inert_along_run acts a _ Hdone)).
Qed.

Lemma first_toggle_pause_witness :
  firstToggleDoneRef autoplayed = false /\
  option_map paused (backgroundMusicRef (togglePlayPause true autoplayed))
  = Some true /\
  interaction true (run [ARender true; ADeliver true; ARender true]
                      (togglePlayPause true autoplayed))
  = run [ARender true; ADeliver true; ARender true]
      (togglePlayPause true autoplayed).
Proof.
  split; [reflexivity|].
  pose proof (first_toggle_pause true autoplayed (mkAudio false (1#2) true 0)
                eq_refl eq_refl eq_refl) as (H1 & _ & _ & _ & _ & H6).
  split.
  - exact (f_equal (option_map paused) H1).
  - exact (H6 [ARender true; ADeliver true; ARender true] true).
Defined.

(** C10.  Any [togglePlayPause] call that finds the background element, a
    first play as much as a first pause, leaves the first-toggle flag set; the
    flag stays set along every later run, and there a click, keydown or
    touchstart on the document changes nothing, so the retry handler issues no
    play request. *)
Theorem first_toggle_done_permanent : forall allow s b,
  backgroundMusicRef s = Some b ->
  let s' := togglePlayPause allow s in
  firstToggleDoneRef s' = true /\
  (exists cmds,
     trace s' = trace s ++ cmds /\
     existsb isTransport cmds = true) /\
  forall acts,
    firstToggleDoneRef (run acts s') = true /\
    forall a, interaction a (run acts s') = run acts s'.
Proof.
  intros allow s b Hb.
  assert (Hdone : firstToggleDoneRef (togglePlayPause allow s) = true)
    by (rewrite ftd_togglePlayPause, Hb; reflexivity).
  cbv zeta. split; [exact Hdone|]. split.
  - destruct s as [st rd bg egg ctx ftd mr pr plh pah ms il ppl vis fi ev tr].
    destruct b as [pb vb lb tb]. simpl in Hb. subst bg.
    destruct pb, ftd, ctx as [[| |]|], allow, ms, ppl; evaluate;
      rewrite <- ?app_assoc; eexists; split; reflexivity.
  - intros acts.
    split; [exact (proj1 (interaction_inert_along_run acts true _ Hdone))|].
    intros a. exact (proj2 (interaction_inert_along_run acts a _ Hdone)).
Qed.

Lemma first_toggle_done_permanent_witness :
  option_map paused (backgroundMusicRef mounted) = Some true /\
  firstToggleDoneRef (togglePlayPause true mounted) = true /\
  interaction true (run [ADeliver true; ARender true; ATogglePlayPause true;
                         ADeliver true; ARender true]
                      (togglePlayPause true mounted))
  = run [ADeliver true; ARender true; ATogglePlayPause true;
         ADeliver true; ARender true]
      (togglePlayPause true mounted).
Proof.
  split; [reflexivity|].
  pose proof (first_toggle_done_permanent true mounted
                (mkAudio true (1#2) true 0) eq_refl) as (H1 & _ & H3).
  split; [exact H1|].
  exact (proj2 (H3 [ADeliver true; ARender true; ATogglePlayPause true;
                    ADeliver true; ARender true]) true).
Defined.

(** * Notifications *)

(** C9 as stated fails for [toggleMute]: the notification is dispatched first
    and the flip of the mute flag is requested after it. *)
Lemma mute_notification_order_counterexample :
  let cmds := newCmds mounted (toggleMute mounted) in
  cmds = [Dispatch AudioMuteToggled; SetIsMuted true] /\
  occursBefore isSetIsMuted (isDispatchOf AudioMuteToggled) cmds = false /\
  occursBefore (isDispatchOf AudioMuteToggled) isSetIsMuted cmds = true.
Proof. vm_compute. repeat split. Qed.

(** C9 amended.  Every [toggleMute] call emits the mute notification exactly
    once, as its first action, and then requests the flip of the mute flag.
    Every [togglePlayPause] call that finds the background element emits the
    play/pause notification exactly once, as its last action, after the play
    or pause command; without the element the call does nothing. *)
Theorem notifications_emitted : forall allow s,
  trace (toggleMute s)
  = trace s ++ [Dispatch AudioMuteToggled;
                SetIsMuted (negb (isMuted (store s)))] /\
  match backgroundMusicRef s with
  | None => togglePlayPause allow s = s
  | Some b =>
      exists cmds,
        trace (togglePlayPause allow s)
        = trace s ++ cmds ++ [Dispatch AudioPlayPauseToggled] /\
        existsb isTransport cmds = true /\
        existsb (isDispatchOf AudioPlayPauseToggled) cmds = false
  end.
Proof.
  intros allow s. split.
  - destruct s as [st rd bg egg ctx ftd mr pr plh pah ms il ppl vis fi ev tr].
    evaluate. rewrite <- app_assoc. reflexivity.
  - destruct (backgroundMusicRef s) as [b|] eqn:Hb;
      [|apply togglePlayPause_uninitialised; exact Hb].
    destruct s as [st rd bg egg ctx ftd mr pr plh pah ms il ppl vis fi ev tr].
    destruct b as [pb vb lb tb]. simpl in Hb. subst bg.
    destruct pb, ftd, ctx as [[| |]|], allow, ms, ppl; evaluate;
      rewrite <- ?app_assoc;
      first
        [ exists [Play Background (mkAudio true vb lb tb)];
          repeat split; reflexivity
        | exists [ResumeContext; Play Background (mkAudio true vb lb tb)];
          repeat split; reflexivity
        | exists [Pause Background (mkAudio false vb lb tb); SetIsPlaying false];
          repeat split; reflexivity ].
Qed.

(** * The background volume follows the mute flag *)

(** Only the mount effect and the mute effect write the background volume,
    and only a render changes the committed mute flag; so on every run of a
    mounted component the background volume is 0 when the committed mute flag
    is set and 0.5 when it is not. *)
Lemma mv_emit c s : muteView (emit c s) = muteView s.
Proof. reflexivity. Qed.
Lemma mv_enqueue t e s : muteView (enqueue t e s) = muteView s.
Proof. reflexivity. Qed.
Lemma mv_setTrack_Effect a s :
  easterEggSoundRef s <> None -> muteView (setTrack Effect a s) = muteView s.
Proof.
  intros H. unfold muteView. simpl.
  destruct (easterEggSoundRef s); [reflexivity|congruence].
Qed.
Lemma mv_setTrack_Background a b s :
  backgroundMusicRef s = Some b -> volume a = volume b ->
  muteView (setTrack Background a s) = muteView s.
Proof. intros H Hv. unfold muteView. simpl. rewrite H, Hv. reflexivity. Qed.
Lemma mv_updTrack t f s :
  (forall a, volume (f a) = volume a) \/ t = Effect ->
  muteView (updTrack t f s) = muteView s.
Proof.
  intros H. unfold updTrack. destruct t; simpl getTrack.
  - destruct (backgroundMusicRef s) as [b|] eqn:E; [|reflexivity].
    destruct H as [H|H]; [|discriminate H].
    apply (mv_setTrack_Background _ b); [exact E|apply H].
  - destruct (easterEggSoundRef s) as [e|] eqn:E; [|reflexivity].
    apply mv_setTrack_Effect. congruence.
Qed.
Lemma mv_pause t s : muteView (pause t s) = muteView s.
Proof.
  unfold pause.
  destruct (getTrack t s) as [a|] eqn:E; [|reflexivity].
  assert (H : muteView (setTrack t (set_paused true a) (emit (Pause t a) s))
              = muteView s).
  { transitivity (muteView (emit (Pause t a) s)); [|apply mv_emit].
    destruct t; simpl in E.
    - apply (mv_setTrack_Background _ a); [exact E|reflexivity].
    - apply mv_setTrack_Effect. simpl. congruence. }
  destruct (paused a); [exact H|]. rewrite mv_enqueue. exact H.
Qed.
Lemma mv_play a t s : muteView (play a t s) = muteView s.
Proof.
  unfold play.
  destruct (getTrack t s) as [x|] eqn:E; [|reflexivity].
  destruct (a && paused x); [|reflexivity].
  rewrite mv_enqueue.
  transitivity (muteView (emit (Play t x) s)); [|apply mv_emit].
  destruct t; simpl in E.
  - apply (mv_setTrack_Background _ x); [exact E|reflexivity].
  - apply mv_setTrack_Effect. simpl. congruence.
Qed.
Lemma mv_updTrack_Effect f s : muteView (updTrack Effect f s) = muteView s.
Proof. apply mv_updTrack. right. reflexivity. Qed.
Lemma mv_updTrack_loop b s : muteView (updTrack Background (set_loop b) s) = muteView s.
Proof. apply mv_updTrack. left. reflexivity. Qed.
Lemma mv_updTrack_currentTime q s :
  muteView (updTrack Background (set_currentTime q) s) = muteView s.
Proof. apply mv_updTrack. left. reflexivity. Qed.
Lemma mv_resumeContextIfSuspended s : muteView (resumeContextIfSuspended s) = muteView s.
Proof. unfold resumeContextIfSuspended. repeat break_match; reflexivity. Qed.
Lemma mv_setPlaybackState p s : muteView (setPlaybackState p s) = muteView s.
Proof. unfold setPlaybackState. repeat break_match; reflexivity. Qed.
Lemma mv_setIsMuted f s : muteView (setIsMuted f s) = muteView s.
Proof. reflexivity. Qed.
Lemma mv_setIsPlaying b s : muteView (setIsPlaying b s) = muteView s.
Proof. reflexivity. Qed.
Lemma mv_setEasterEggActive b s : muteView (setEasterEggActive b s) = muteView s.
Proof. reflexivity. Qed.
Lemma mv_set_firstToggleDoneRef b s : muteView (set_firstToggleDoneRef b s) = muteView s.
Proof. reflexivity. Qed.
Lemma mv_set_fadeIntervals l s : muteView (set_fadeIntervals l s) = muteView s.
Proof. reflexivity. Qed.
Lemma mv_set_events l s : muteView (set_events l s) = muteView s.
Proof. reflexivity. Qed.
Lemma mv_set_visualizing l s : muteView (set_visualizing l s) = muteView s.
Proof. reflexivity. Qed.
Lemma mv_set_mediaSession l s : muteView (set_mediaSession l s) = muteView s.
Proof. reflexivity. Qed.
Lemma mv_set_handlerRefs a b s : muteView (set_handlerRefs a b s) = muteView s.
Proof. reflexivity. Qed.
Lemma mv_set_listeners a b s : muteView (set_listeners a b s) = muteView s.
Proof. reflexivity. Qed.
#[local] Hint Rewrite mv_emit mv_enqueue mv_pause mv_play mv_updTrack_Effect
  mv_updTrack_loop mv_updTrack_currentTime mv_resumeContextIfSuspended
  mv_setPlaybackState mv_setIsMuted mv_setIsPlaying mv_setEasterEggActive
  mv_set_firstToggleDoneRef mv_set_fadeIntervals mv_set_events
  mv_set_visualizing mv_set_mediaSession mv_set_handlerRefs mv_set_listeners : mv.

Lemma mv_dispatch n s : muteView (dispatch n s) = muteView s.
Proof. unfold dispatch, updateMediaSessionState. frame_op. Qed.
#[local] Hint Rewrite mv_dispatch : mv.
Lemma mv_toggleMute s : muteView (toggleMute s) = muteView s.
Proof. unfold toggleMute. frame_op. Qed.
Lemma mv_togglePlayPause a s : muteView (togglePlayPause a s) = muteView s.
Proof. unfold togglePlayPause. frame_op. Qed.
Lemma mv_resumeBackgroundMusic r a s : muteView (resumeBackgroundMusic r a s) = muteView s.
Proof. unfold resumeBackgroundMusic. frame_op. Qed.
#[local] Hint Rewrite mv_toggleMute mv_togglePlayPause mv_resumeBackgroundMusic : mv.
Lemma mv_restore s : muteView (restoreBackgroundMusicMediaSession s) = muteView s.
Proof. unfold restoreBackgroundMusicMediaSession. frame_op. Qed.
#[local] Hint Rewrite mv_restore : mv.
Lemma mv_playEasterEggSound r a s : muteView (playEasterEggSound r a s) = muteView s.
Proof. unfold playEasterEggSound. frame_op. Qed.
Lemma mv_stopEasterEggSound r f a s : muteView (stopEasterEggSound r f a s) = muteView s.
Proof. unfold stopEasterEggSound. frame_op. Qed.
Lemma mv_fadeTick n a s : muteView (fadeTick n a s) = muteView s.
Proof. unfold fadeTick, fadeStep, clearInterval. frame_op. Qed.
#[local] Hint Rewrite mv_playEasterEggSound mv_stopEasterEggSound mv_fadeTick : mv.
Lemma mv_deliver a s : muteView (deliver a s) = muteView s.
Proof.
  unfold deliver, onPlaying, onPause, onEnded, startVisualization, stopVisualization.
  frame_op.
Qed.
Lemma mv_runHandler h a s : muteView (runHandler h a s) = muteView s.
Proof. unfold runHandler. frame_op. Qed.
#[local] Hint Rewrite mv_deliver mv_runHandler : mv.
Lemma mv_step_other : forall a s,
  (forall allow, a <> ARender allow) -> muteView (step a s) = muteView s.
Proof.
  intros a s Ha.
  destruct a; try (exfalso; eapply Ha; reflexivity);
    unfold step, interaction, attemptPlayOnInteraction, autoplay,
      mediaSessionPlay, mediaSessionPause, togglePlayPause_catch,
      resumeBackgroundMusic_then, resumeBackgroundMusic_catch,
      playEasterEggSound_catch, attemptPlayOnInteraction_then, autoplay_then,
      autoplay_catch; frame_op.
Qed.

Lemma volumeSynced_render : forall a s, volumeSynced s -> volumeSynced (render a s).
Proof.
  intros a s H.
  destruct s as [st rd bg egg ctx ftd mr pr plh pah ms il ppl vis fi ev tr].
  unfold volumeSynced, muteView in H. simpl in H.
  destruct bg as [[pb vb lb tb]|]; [|discriminate H].
  destruct egg as [[pe ve le te]|]; [|discriminate H].
  simpl in H. injection H as Hv. subst vb.
  destruct st as [m p x], rd as [m' p' x'].
  destruct m, m', p, p', x, x', pb, pe, lb, ctx as [[| |]|], a; reflexivity.
Qed.

Lemma volumeSynced_step : forall a s, volumeSynced s -> volumeSynced (step a s).
Proof.
  intros a s H.
  destruct a; try apply volumeSynced_render; try exact H;
    unfold volumeSynced in *;
    rewrite mv_step_other by discriminate;
    rewrite H;
    (replace (isMuted (rendered (step _ s))) with (isMuted (rendered s));
     [reflexivity|]);
    match goal with
    | |- _ = isMuted (rendered (step ?a s)) =>
        exact (f_equal snd (eq_sym (mv_step_other a s ltac:(discriminate))))
    end.
Qed.

Lemma volumeSynced_run : forall acts s, volumeSynced s -> volumeSynced (run acts s).
Proof.
  induction acts as [|a acts IH]; intros s H; simpl; [exact H|].
  apply IH. apply volumeSynced_step. exact H.
Qed.

(** X1.  On every run of a mounted component both elements exist and the
    background volume is 0 when the committed mute flag is set and 0.5 when
    it is not. *)
Lemma background_volume_synced : forall ctx ms acts,
  let s := run acts (mount ctx (initial ms)) in
  exists b e,
    backgroundMusicRef s = Some b /\
    easterEggSoundRef s = Some e /\
    volume b = (if isMuted (rendered s) then 0 else 1#2).
Proof.
  intros ctx ms acts s.
  assert (H : volumeSynced s).
  { apply volumeSynced_run. destruct ctx, ms; reflexivity. }
  unfold volumeSynced, muteView in H.
  destruct (backgroundMusicRef s) as [b|]; [|discriminate H].
  destruct (easterEggSoundRef s) as [e|]; [|discriminate H].
  exists b, e. simpl in H. injection H as Hv. rewrite Hv. repeat split.
Qed.

(** * The mirrors of the state cells and the document listeners *)

(** Only a render writes [isMutedRef], [isPlayingRef] and the committed
    snapshot, and only the fulfilled retry removes the document listeners. *)
Lemma ctl_emit c s : ctlView (emit c s) = ctlView s.
Proof. reflexivity. Qed.
Lemma ctl_enqueue t e s : ctlView (enqueue t e s) = ctlView s.
Proof. reflexivity. Qed.
Lemma ctl_setTrack t a s : ctlView (setTrack t a s) = ctlView s.
Proof. destruct t; reflexivity. Qed.
#[local] Hint Rewrite ctl_emit ctl_enqueue ctl_setTrack : ctl.
Lemma ctl_updTrack t f s : ctlView (updTrack t f s) = ctlView s.
Proof. unfold updTrack. frame_ctl. Qed.
Lemma ctl_pause t s : ctlView (pause t s) = ctlView s.
Proof. unfold pause. frame_ctl. Qed.
Lemma ctl_play a t s : ctlView (play a t s) = ctlView s.
Proof. unfold play. frame_ctl. Qed.
Lemma ctl_resumeContextIfSuspended s :
  ctlView (resumeContextIfSuspended s) = ctlView s.
Proof. unfold resumeContextIfSuspended. repeat break_match; reflexivity. Qed.
Lemma ctl_setPlaybackState p s : ctlView (setPlaybackState p s) = ctlView s.
Proof. unfold setPlaybackState. repeat break_match; reflexivity. Qed.
Lemma ctl_setIsMuted f s : ctlView (setIsMuted f s) = ctlView s.
Proof. reflexivity. Qed.
Lemma ctl_setIsPlaying b s : ctlView (setIsPlaying b s) = ctlView s.
Proof. reflexivity. Qed.
Lemma ctl_setEasterEggActive b s : ctlView (setEasterEggActive b s) = ctlView s.
Proof. reflexivity. Qed.
Lemma ctl_set_firstToggleDoneRef b s :
  ctlView (set_firstToggleDoneRef b s) = ctlView s.
Proof. reflexivity. Qed.
Lemma ctl_set_fadeIntervals l s : ctlView (set_fadeIntervals l s) = ctlView s.
Proof. reflexivity. Qed.
Lemma ctl_set_events l s : ctlView (set_events l s) = ctlView s.
Proof. reflexivity. Qed.
Lemma ctl_set_visualizing b s : ctlView (set_visualizing b s) = ctlView s.
Proof. reflexivity. Qed.
Lemma ctl_set_mediaSession m s : ctlView (set_mediaSession m s) = ctlView s.
Proof. reflexivity. Qed.
Lemma ctl_set_handlerRefs a b s : ctlView (set_handlerRefs a b s) = ctlView s.
Proof. reflexivity. Qed.
#[local] Hint Rewrite ctl_updTrack ctl_pause ctl_play
  ctl_resumeContextIfSuspended ctl_setPlaybackState ctl_setIsMuted
  ctl_setIsPlaying ctl_setEasterEggActive ctl_set_firstToggleDoneRef
  ctl_set_fadeIntervals ctl_set_events ctl_set_visualizing
  ctl_set_mediaSession ctl_set_handlerRefs : ctl.
Lemma ctl_dispatch n s : ctlView (dispatch n s) = ctlView s.
Proof. unfold dispatch, updateMediaSessionState. frame_ctl. Qed.
#[local] Hint Rewrite ctl_dispatch : ctl.
Lemma ctl_toggleMute s : ctlView (toggleMute s) = ctlView s.
Proof. unfold toggleMute. frame_ctl. Qed.
Lemma ctl_togglePlayPause a s : ctlView (togglePlayPause a s) = ctlView s.
Proof. unfold togglePlayPause. frame_ctl. Qed.
Lemma ctl_resumeBackgroundMusic r a s :
  ctlView (resumeBackgroundMusic r a s) = ctlView s.
Proof. unfold resumeBackgroundMusic. frame_ctl. Qed.
Lemma ctl_restore s : ctlView (restoreBackgroundMusicMediaSession s) = ctlView s.
Proof. unfold restoreBackgroundMusicMediaSession. frame_ctl. Qed.
#[local] Hint Rewrite ctl_toggleMute ctl_togglePlayPause
  ctl_resumeBackgroundMusic ctl_restore : ctl.
Lemma ctl_playEasterEggSound r a s :
  ctlView (playEasterEggSound r a s) = ctlView s.
Proof. unfold playEasterEggSound. frame_ctl. Qed.
Lemma ctl_stopEasterEggSound r f a s :
  ctlView (stopEasterEggSound r f a s) = ctlView s.
Proof. unfold stopEasterEggSound. frame_ctl. Qed.
Lemma ctl_fadeTick n a s : ctlView (fadeTick n a s) = ctlView s.
Proof. unfold fadeTick, fadeStep, clearInterval. frame_ctl. Qed.
Lemma ctl_deliver a s : ctlView (deliver a s) = ctlView s.
Proof.
  unfold deliver, onPlaying, onPause, onEnded, startVisualization,
    stopVisualization. frame_ctl.
Qed.
#[local] Hint Rewrite ctl_playEasterEggSound ctl_stopEasterEggSound
  ctl_fadeTick ctl_deliver : ctl.
Lemma ctl_runHandler h a s : ctlView (runHandler h a s) = ctlView s.
Proof. unfold runHandler. frame_ctl. Qed.
#[local] Hint Rewrite ctl_runHandler : ctl.

Lemma ctl_step_other : forall a s,
  (forall allow, a <> ARender allow) ->
  a <> AInteractionFulfilled ->
  ctlView (step a s) = ctlView s.
Proof.
  intros a s Hr Hi.
  destruct a; try (exfalso; eapply Hr; reflexivity); try congruence;
    unfold step, interaction, attemptPlayOnInteraction, autoplay,
      mediaSessionPlay, mediaSessionPause, togglePlayPause_catch,
      resumeBackgroundMusic_then, resumeBackgroundMusic_catch,
      playEasterEggSound_catch, autoplay_then, autoplay_catch; frame_ctl.
Qed.

Lemma ctl_muteEffect r s : ctlView (muteEffect r s) = ctlView s.
Proof. unfold muteEffect. frame_ctl. Qed.
Lemma ctl_playPauseEffect r a s : ctlView (playPauseEffect r a s) = ctlView s.
Proof. unfold playPauseEffect. frame_ctl. Qed.

Lemma ctl_render : forall a s,
  ctlView (render a s)
  = (if negb (Bool.eqb (isMuted (rendered s)) (isMuted (store s)))
        || negb (Bool.eqb (isPlaying (rendered s)) (isPlaying (store s)))
     then (isMuted (store s), isPlaying (store s), store s,
           interactionListeners s)
     else (isMutedRef s, isPlayingRef s, store s, interactionListeners s)).
Proof.
  intros a s. unfold render.
  repeat break_match;
    rewrite ?ctl_playPauseEffect, ?ctl_muteEffect; reflexivity.
Qed.

Lemma refsMirror_ctl : forall s t,
  ctlView t = ctlView s -> refsMirror s -> refsMirror t.
Proof.
  intros s t E [Hm Hp]. unfold ctlView in E. injection E as E1 E2 E3 E4.
  unfold refsMirror. rewrite E1, E2, E3. split; assumption.
Qed.

Lemma refsMirror_render : forall a s, refsMirror s -> refsMirror (render a s).
Proof.
  intros a s [Hm Hp]. pose proof (ctl_render a s) as E.
  unfold ctlView in E. unfold refsMirror.
  destruct (store s) as [m p x], (rendered s) as [m' p' x'].
  simpl in *.
  destruct m, m', p, p'; simpl in E; injection E as E1 E2 E3 E4;
    rewrite E1, E2, E3; simpl; split; congruence.
Qed.

Lemma refsMirror_step : forall a s, refsMirror s -> refsMirror (step a s).
Proof.
  intros a s H.
  destruct a; try (apply refsMirror_render; exact H);
    try (apply (refsMirror_ctl s); [apply ctl_step_other; discriminate|exact H]).
  unfold step, attemptPlayOnInteraction_then, setPlaybackState.
  destruct (mediaSession (setIsPlaying true s)); exact H.
Qed.

Lemma refsMirror_run : forall acts s, refsMirror s -> refsMirror (run acts s).
Proof.
  induction acts as [|a acts IH]; intros s H; simpl; [exact H|].
  apply IH. apply refsMirror_step. exact H.
Qed.

(** X4.  On every run of a mounted component the refs [isMutedRef] and
    [isPlayingRef] hold the values of the last committed render, not the
    values a setter has stored since. *)
Theorem refs_mirror_committed_state : forall ctx ms acts,
  let s := run acts (mount ctx (initial ms)) in
  isMutedRef s = isMuted (rendered s) /\
  isPlayingRef s = isPlaying (rendered s).
Proof.
  intros ctx ms acts s.
  assert (H : refsMirror s).
  { apply refsMirror_run. destruct ctx, ms; split; reflexivity. }
  exact H.
Qed.

(** X5.  Whenever a click, keydown or touchstart on the document changes the
    state of a mounted component at all, the change is one play request for
    the background element, and the committed state is not playing and not
    muted, no toggle has been made and the listeners are still registered. *)
Theorem interaction_retry_guard : forall ctx ms acts allow,
  let s := run acts (mount ctx (initial ms)) in
  interaction allow s <> s ->
  isPlaying (rendered s) = false /\
  isMuted (rendered s) = false /\
  firstToggleDoneRef s = false /\
  interactionListeners s = true /\
  exists b, backgroundMusicRef s = Some b /\
            trace (interaction allow s) = trace s ++ [Play Background b].
Proof.
  intros ctx ms acts allow s Hne.
  assert (Hs : refsMirror s).
  { apply refsMirror_run. destruct ctx, ms; split; reflexivity. }
  destruct Hs as [Hm Hp]. rewrite <- Hm, <- Hp.
  unfold interaction, attemptPlayOnInteraction in *.
  destruct (interactionListeners s); [|congruence].
  destruct (backgroundMusicRef s) as [b|] eqn:Hb; [|congruence].
  destruct (isPlayingRef s), (isMutedRef s), (firstToggleDoneRef s);
    simpl in *; try congruence.
  repeat split. exists b. split; [reflexivity|].
  unfold play. simpl. rewrite Hb.
  destruct (allow && paused b); reflexivity.
Qed.



Lemma listeners_removed_step : forall a s,
  interactionListeners s = false -> interactionListeners (step a s) = false.
Proof.
  intros a s H.
  assert (P : forall t, ctlView t = ctlView s -> interactionListeners t = false).
  { intros t E. unfold ctlView in E. congruence. }
  destruct a; try (apply P; apply ctl_step_other; discriminate).
  - cbn [step]. pose proof (ctl_render allow s) as E. unfold ctlView in E.
    destruct (_ || _) in E; injection E as _ _ _ E4; congruence.
  - reflexivity.
Qed.

Lemma listeners_removed_run : forall acts s,
  interactionListeners s = false -> interactionListeners (run acts s) = false.
Proof.
  induction acts as [|a acts IH]; intros s H; simpl; [exact H|].
  apply IH. apply listeners_removed_step. exact H.
Qed.

(** X6.  Once the retry started from the document listener is fulfilled, the
    listeners are removed and never registered again: along every later run
    a click, keydown or touchstart leaves the state unchanged. *)
Theorem retry_listener_deregisters : forall s acts allow,
  let t := run acts (attemptPlayOnInteraction_then s) in
  interactionListeners t = false /\ interaction allow t = t.
Proof.
  intros s acts allow t.
  assert (H : interactionListeners t = false)
    by (apply listeners_removed_run; reflexivity).
  split; [exact H|]. unfold interaction. rewrite H. reflexivity.
Qed.

Lemma interaction_retry_guard_witness :
  interaction true (run [] (mount Suspended (initial true)))
  <> run [] (mount Suspended (initial true)) /\
  isMuted (rendered (run [] (mount Suspended (initial true)))) = false.
Proof.
  assert (H : interaction true (run [] (mount Suspended (initial true)))
              <> run [] (mount Suspended (initial true))).
  { intro E. apply (f_equal trace) in E. vm_compute in E. discriminate E. }
  split; [exact H|].
  exact (proj1 (proj2 (interaction_retry_guard Suspended true [] true H))).
Defined.

(** * The elements stay well formed *)

(** No step of a mounted component releases an element or the context,
    changes a loop flag, or assigns a volume outside [0, 1]. *)
Lemma es_frame : forall s t,
  backgroundMusicRef t = backgroundMusicRef s ->
  easterEggSoundRef t = easterEggSoundRef s ->
  audioContextRef t = audioContextRef s ->
  elementsSound s -> elementsSound t.
Proof.
  intros s t Hb He Hc (b & e & H1 & H2 & H3 & H4 & H5).
  exists b, e. rewrite Hb, He, Hc.
  exact (conj H1 (conj H2 (conj H3 (conj H4 H5)))).
Qed.

Lemma es_updTrack : forall t f s,
  (forall a, getTrack t s = Some a -> goodElement t a -> goodElement t (f a)) ->
  elementsSound s -> elementsSound (updTrack t f s).
Proof.
  intros t f s Hf (b & e & H1 & H2 & H3 & H4 & H5).
  unfold updTrack. destruct t; simpl in *.
  - rewrite H1 in *. exists (f b), e.
    exact (conj eq_refl (conj H2 (conj (Hf b eq_refl H3) (conj H4 H5)))).
  - rewrite H2 in *. exists b, (f e).
    exact (conj H1 (conj eq_refl (conj H3 (conj (Hf e eq_refl H4) H5)))).
Qed.

Lemma good_set_paused t p a : goodElement t a -> goodElement t (set_paused p a).
Proof. exact (fun H => H). Qed.
Lemma good_set_currentTime t q a :
  goodElement t a -> goodElement t (set_currentTime q a).
Proof. exact (fun H => H). Qed.
Lemma good_set_volume t v a :
  0 <= v -> v <= 1 -> goodElement t a -> goodElement t (set_volume v a).
Proof. intros H0 H1 (Hl & _ & _). repeat split; assumption. Qed.
Lemma good_set_loop_background a :
  goodElement Background a -> goodElement Background (set_loop true a).
Proof. intros (Hl & H0 & H1). repeat split; assumption. Qed.

Lemma es_emit c s : elementsSound s -> elementsSound (emit c s).
Proof. apply es_frame; reflexivity. Qed.
Lemma es_enqueue t e s : elementsSound s -> elementsSound (enqueue t e s).
Proof. apply es_frame; reflexivity. Qed.
Lemma es_setIsMuted f s : elementsSound s -> elementsSound (setIsMuted f s).
Proof. apply es_frame; reflexivity. Qed.
Lemma es_setIsPlaying b s : elementsSound s -> elementsSound (setIsPlaying b s).
Proof. apply es_frame; reflexivity. Qed.
Lemma es_setEasterEggActive b s :
  elementsSound s -> elementsSound (setEasterEggActive b s).
Proof. apply es_frame; reflexivity. Qed.
Lemma es_set_firstToggleDoneRef b s :
  elementsSound s -> elementsSound (set_firstToggleDoneRef b s).
Proof. apply es_frame; reflexivity. Qed.
Lemma es_set_fadeIntervals l s :
  elementsSound s -> elementsSound (set_fadeIntervals l s).
Proof. apply es_frame; reflexivity. Qed.
Lemma es_set_events l s : elementsSound s -> elementsSound (set_events l s).
Proof. apply es_frame; reflexivity. Qed.
Lemma es_set_visualizing b s : elementsSound s -> elementsSound (set_visualizing b s).
Proof. apply es_frame; reflexivity. Qed.
Lemma es_set_mediaSession m s : elementsSound s -> elementsSound (set_mediaSession m s).
Proof. apply es_frame; reflexivity. Qed.
Lemma es_set_handlerRefs a b s :
  elementsSound s -> elementsSound (set_handlerRefs a b s).
Proof. apply es_frame; reflexivity. Qed.
Lemma es_set_listeners a b s : elementsSound s -> elementsSound (set_listeners a b s).
Proof. apply es_frame; reflexivity. Qed.
Lemma es_set_rendered r s : elementsSound s -> elementsSound (set_rendered r s).
Proof. apply es_frame; reflexivity. Qed.
Lemma es_refSyncEffect r s : elementsSound s -> elementsSound (refSyncEffect r s).
Proof. apply es_frame; reflexivity. Qed.
Lemma es_setPlaybackState p s :
  elementsSound s -> elementsSound (setPlaybackState p s).
Proof. unfold setPlaybackState. break_match; auto using es_set_mediaSession. Qed.
Lemma es_resumeContextIfSuspended s :
  elementsSound s -> elementsSound (resumeContextIfSuspended s).
Proof.
  unfold resumeContextIfSuspended. intros H.
  destruct (audioContextRef s) as [[| |]|] eqn:E; try exact H.
  destruct H as (b & e & H1 & H2 & H3 & H4 & H5).
  exists b, e.
  refine (conj H1 (conj H2 (conj H3 (conj H4 _)))). discriminate.
Qed.

Lemma es_pause t s : elementsSound s -> elementsSound (pause t s).
Proof.
  intros H. unfold pause. destruct (getTrack t s) as [a|] eqn:E; [|exact H].
  assert (H' : elementsSound (setTrack t (set_paused true a) (emit (Pause t a) s))).
  { pose proof (es_updTrack t (set_paused true) (emit (Pause t a) s)) as U.
    unfold updTrack in U.
    replace (getTrack t (emit (Pause t a) s)) with (Some a) in U
      by (rewrite <- E; destruct t; reflexivity).
    apply U; [intros; apply good_set_paused; assumption|apply es_emit; exact H]. }
  destruct (paused a); [exact H'|apply es_enqueue; exact H'].
Qed.

Lemma es_play allow t s : elementsSound s -> elementsSound (play allow t s).
Proof.
  intros H. unfold play. destruct (getTrack t s) as [a|] eqn:E; [|exact H].
  destruct (allow && paused a); [|apply es_emit; exact H].
  apply es_enqueue.
  pose proof (es_updTrack t (set_paused false) (emit (Play t a) s)) as U.
  unfold updTrack in U.
  replace (getTrack t (emit (Play t a) s)) with (Some a) in U
    by (rewrite <- E; destruct t; reflexivity).
  apply U; [intros; apply good_set_paused; assumption|apply es_emit; exact H].
Qed.

Lemma es_updTrack_volume t v s :
  0 <= v -> v <= 1 ->
  elementsSound s -> elementsSound (updTrack t (set_volume v) s).
Proof. intros H0 H1. apply es_updTrack. intros. apply good_set_volume; assumption. Qed.
Lemma es_updTrack_currentTime t q s :
  elementsSound s -> elementsSound (updTrack t (set_currentTime q) s).
Proof. apply es_updTrack. intros. apply good_set_currentTime; assumption. Qed.
Lemma es_updTrack_loop s :
  elementsSound s -> elementsSound (updTrack Background (set_loop true) s).
Proof. apply es_updTrack. intros. apply good_set_loop_background; assumption. Qed.

Lemma Q_unit_0 : 0 <= 0 /\ 0 <= 1.
Proof. split; discriminate. Qed.
Lemma Q_unit_half : 0 <= 1#2 /\ (1#2) <= 1.
Proof. split; discriminate. Qed.
Lemma Q_unit_1 : 0 <= 1 /\ 1 <= 1.
Proof. split; discriminate. Qed.

(** Goal-directed: peel the outermost state transformer. *)
Ltac sound_step :=
  lazymatch goal with
  | |- elementsSound (emit _ _) => apply es_emit
  | |- elementsSound (enqueue _ _ _) => apply es_enqueue
  | |- elementsSound (setIsMuted _ _) => apply es_setIsMuted
  | |- elementsSound (setIsPlaying _ _) => apply es_setIsPlaying
  | |- elementsSound (setEasterEggActive _ _) => apply es_setEasterEggActive
  | |- elementsSound (set_firstToggleDoneRef _ _) =>
      apply es_set_firstToggleDoneRef
  | |- elementsSound (set_fadeIntervals _ _) => apply es_set_fadeIntervals
  | |- elementsSound (set_events _ _) => apply es_set_events
  | |- elementsSound (set_visualizing _ _) => apply es_set_visualizing
  | |- elementsSound (set_mediaSession _ _) => apply es_set_mediaSession
  | |- elementsSound (set_handlerRefs _ _ _) => apply es_set_handlerRefs
  | |- elementsSound (set_listeners _ _ _) => apply es_set_listeners
  | |- elementsSound (set_rendered _ _) => apply es_set_rendered
  | |- elementsSound (refSyncEffect _ _) => apply es_refSyncEffect
  | |- elementsSound (setPlaybackState _ _) => apply es_setPlaybackState
  | |- elementsSound (resumeContextIfSuspended _) =>
      apply es_resumeContextIfSuspended
  | |- elementsSound (pause _ _) => apply es_pause
  | |- elementsSound (play _ _ _) => apply es_play
  | |- elementsSound (updTrack _ (set_currentTime _) _) =>
      apply es_updTrack_currentTime
  | |- elementsSound (updTrack Background (set_loop true) _) =>
      apply es_updTrack_loop
  | |- elementsSound (updTrack _ (set_volume _) _) =>
      apply es_updTrack_volume; [discriminate | discriminate | ]
  end.

Ltac sound := repeat first [ assumption | sound_step | break_match ].

Lemma es_dispatch n s : elementsSound s -> elementsSound (dispatch n s).
Proof. intros H. unfold dispatch, updateMediaSessionState. sound. Qed.
Lemma es_toggleMute s : elementsSound s -> elementsSound (toggleMute s).
Proof. intros H. unfold toggleMute. apply es_setIsMuted, es_dispatch, H. Qed.
Lemma es_togglePlayPause a s :
  elementsSound s -> elementsSound (togglePlayPause a s).
Proof.
  intros H. unfold togglePlayPause.
  repeat first
    [ progress sound
    | match goal with |- elementsSound (dispatch _ _) => apply es_dispatch end ].
Qed.
Lemma es_resumeBackgroundMusic r a s :
  elementsSound s -> elementsSound (resumeBackgroundMusic r a s).
Proof. intros H. unfold resumeBackgroundMusic. sound. Qed.
Lemma es_restore s :
  elementsSound s -> elementsSound (restoreBackgroundMusicMediaSession s).
Proof. intros H. unfold restoreBackgroundMusicMediaSession. sound. Qed.
Ltac sound_op :=
  match goal with
  | |- elementsSound (restoreBackgroundMusicMediaSession _) => apply es_restore
  | |- elementsSound (resumeBackgroundMusic _ _ _) =>
      apply es_resumeBackgroundMusic
  end.

Lemma es_muteEffect r s : elementsSound s -> elementsSound (muteEffect r s).
Proof. intros H. unfold muteEffect. sound. Qed.
Lemma es_playPauseEffect r a s :
  elementsSound s -> elementsSound (playPauseEffect r a s).
Proof. intros H. unfold playPauseEffect. sound. Qed.
Lemma es_render a s : elementsSound s -> elementsSound (render a s).
Proof.
  intros H. unfold render.
  repeat first
    [ progress sound
    | match goal with
      | |- elementsSound (playPauseEffect _ _ _) => apply es_playPauseEffect
      | |- elementsSound (muteEffect _ _) => apply es_muteEffect
      end ].
Qed.
Lemma es_deliver a s : elementsSound s -> elementsSound (deliver a s).
Proof.
  intros H.
  unfold deliver, onPlaying, onPause, onEnded, startVisualization,
    stopVisualization. sound.
Qed.
Lemma es_playEasterEggSound r a s :
  elementsSound s -> elementsSound (playEasterEggSound r a s).
Proof.
  intros H. unfold playEasterEggSound.
  destruct (easterEggSoundRef s); [|exact H].
  apply es_play. apply es_updTrack.
  - intros x _ Hx. apply good_set_currentTime. apply good_set_volume; auto.
    + destruct (isMuted r); discriminate.
    + destruct (isMuted r); discriminate.
  - sound.
Qed.
Lemma es_playEasterEggSound_catch r e a s :
  elementsSound s -> elementsSound (playEasterEggSound_catch r e a s).
Proof.
  intros H. unfold playEasterEggSound_catch.
  apply es_setEasterEggActive. destruct (isPlaying r); [|exact H].
  apply es_resumeBackgroundMusic, H.
Qed.
Lemma es_stopEasterEggSound r f a s :
  elementsSound s -> elementsSound (stopEasterEggSound r f a s).
Proof.
  intros H. unfold stopEasterEggSound.
  repeat first [ progress sound | sound_op ].
Qed.

Lemma fade_step_in_range : forall v : Q,
  Qle_bool v (1#20) = false -> v <= 1 ->
  0 <= v - (1#20) /\ v - (1#20) <= 1.
Proof.
  intros [vn vd] Hb H1.
  assert (Hgt : ~ (vn # vd) <= 1#20).
  { intro H. apply Qle_bool_iff in H. congruence. }
  unfold Qle, Qminus, Qplus, Qopp in *. cbn [Qnum Qden] in *.
  rewrite !Pos2Z.inj_mul. split; lia.
Qed.

Lemma es_fadeTick n a s : elementsSound s -> elementsSound (fadeTick n a s).
Proof.
  intros H. unfold fadeTick.
  destruct (nth_error (fadeIntervals s) n) as [r|]; [|exact H].
  unfold fadeStep, clearInterval.
  destruct (easterEggSoundRef s) as [e|] eqn:Ee; [|sound].
  destruct (negb (Qle_bool (volume e) (1#20)) && negb (isMuted r)) eqn:Hc.
  - apply es_updTrack; [|exact H].
    intros x Hx (Hl & H0 & H1). simpl in Hx. rewrite Ee in Hx.
    injection Hx as <-.
    apply andb_prop in Hc. destruct Hc as [Hc _].
    apply negb_true_iff in Hc.
    destruct (fade_step_in_range (volume e) Hc H1) as [Ha Hb].
    repeat split; assumption.
  - repeat first [ progress sound | sound_op ].
Qed.

Lemma es_runHandler h a s : elementsSound s -> elementsSound (runHandler h a s).
Proof.
  intros H. unfold runHandler.
  repeat first
    [ progress sound
    | match goal with
      | |- elementsSound (togglePlayPause _ _) => apply es_togglePlayPause
      | |- elementsSound (stopEasterEggSound _ _ _ _) =>
          apply es_stopEasterEggSound
      end ].
Qed.

Lemma es_step : forall a s, elementsSound s -> elementsSound (step a s).
Proof.
  intros a s H.
  destruct a;
    unfold step, interaction, attemptPlayOnInteraction, autoplay,
      mediaSessionPlay, mediaSessionPause, togglePlayPause_catch,
      resumeBackgroundMusic_then, resumeBackgroundMusic_catch,
      attemptPlayOnInteraction_then, autoplay_then, autoplay_catch;
    repeat first
      [ progress sound
      | match goal with
        | |- elementsSound (toggleMute _) => apply es_toggleMute
        | |- elementsSound (togglePlayPause _ _) => apply es_togglePlayPause
        | |- elementsSound (playEasterEggSound _ _ _) =>
            apply es_playEasterEggSound
        | |- elementsSound (stopEasterEggSound _ _ _ _) =>
            apply es_stopEasterEggSound
        | |- elementsSound (resumeBackgroundMusic _ _ _) =>
            apply es_resumeBackgroundMusic
        | |- elementsSound (render _ _) => apply es_render
        | |- elementsSound (deliver _ _) => apply es_deliver
        | |- elementsSound (fadeTick _ _ _) => apply es_fadeTick
        | |- elementsSound (runHandler _ _ _) => apply es_runHandler
        | |- elementsSound (playEasterEggSound_catch _ _ _ _) =>
            apply es_playEasterEggSound_catch
        end ].
Qed.

Lemma es_run : forall acts s, elementsSound s -> elementsSound (run acts s).
Proof.
  induction acts as [|a acts IH]; intros s H; simpl; [exact H|].
  apply IH. apply es_step. exact H.
Qed.

Lemma es_mount : forall ctx ms, elementsSound (mount ctx (initial ms)).
Proof.
  intros ctx ms.
  destruct ctx, ms;
    (eexists; eexists; repeat split; try reflexivity; discriminate).
Qed.

(** X2.  On every run of a mounted component both elements and the audio
    context exist, the background element loops and the effect element does
    not. *)
Theorem loop_flags_invariant : forall ctx ms acts,
  let s := run acts (mount ctx (initial ms)) in
  option_map loop (backgroundMusicRef s) = Some true /\
  option_map loop (easterEggSoundRef s) = Some false /\
  audioContextRef s <> None.
Proof.
  intros ctx ms acts s.
  destruct (es_run acts _ (es_mount ctx ms))
    as (b & e & H1 & H2 & (Hb & _) & (He & _) & Hc).
  fold s in H1, H2, Hc. rewrite H1, H2. simpl. rewrite Hb, He.
  repeat split. exact Hc.
Qed.

(** X3.  On every run of a mounted component both volumes lie in [0, 1], the
    range the [volume] setter accepts; in particular the fade never drives
    the effect volume below 0. *)
Theorem volumes_in_unit_interval : forall ctx ms acts,
  let s := run acts (mount ctx (initial ms)) in
  exists b e,
    backgroundMusicRef s = Some b /\ easterEggSoundRef s = Some e /\
    0 <= volume b /\ volume b <= 1 /\ 0 <= volume e /\ volume e <= 1.
Proof.
  intros ctx ms acts s.
  destruct (es_run acts _ (es_mount ctx ms))
    as (b & e & H1 & H2 & (_ & Hb0 & Hb1) & (_ & He0 & He1) & _).
  exists b, e. repeat split; assumption.
Qed.

(** * Teardown *)

Lemma cleanup_released : forall s,
  backgroundMusicRef (cleanup s) = None /\
  easterEggSoundRef (cleanup s) = None /\
  audioContextRef (cleanup s) = None /\
  interactionListeners (cleanup s) = false /\
  fadeIntervals (cleanup s) = fadeIntervals s /\
  store (cleanup s) = store s /\
  (forall m, mediaSession (cleanup s) = Some m ->
             playHandler m = None /\ pauseHandler m = None).
Proof.
  intros s.
  destruct s as [st rd bg egg ctx ftd mr pr plh pah ms il ppl vis fi ev tr].
  destruct bg as [[[|] vb lb tb]|], egg as [[[|] ve le te]|], ctx, ms;
    evaluate; do 6 (split; [reflexivity|]);
    intros m' Hm;
    first [ discriminate Hm | injection Hm as <-; split; reflexivity ].
Qed.

(** X7.  After the cleanup of the mount effect every operation that needs an
    element returns the state unchanged: the play/pause toggle, starting and
    stopping the effect, resuming the background, the document listener, the
    autoplay timer, the media-session commands, and the mute and play/pause
    effects of a later render. *)
Theorem operations_inert_after_cleanup : forall s r allow fadeOut,
  let t := cleanup s in
  togglePlayPause allow t = t /\
  playEasterEggSound r allow t = t /\
  stopEasterEggSound r fadeOut allow t = t /\
  resumeBackgroundMusic r allow t = t /\
  interaction allow t = t /\
  autoplay allow t = t /\
  mediaSessionPlay allow t = t /\
  mediaSessionPause allow t = t /\
  muteEffect r t = t /\
  playPauseEffect r allow t = t.
Proof.
  intros s r allow fadeOut t.
  destruct (cleanup_released s) as (Hb & He & _ & Hi & _ & _ & Hh).
  fold t in Hb, He, Hi, Hh.
  unfold togglePlayPause, playEasterEggSound, stopEasterEggSound,
    resumeBackgroundMusic, interaction, autoplay, mediaSessionPlay,
    mediaSessionPause, muteEffect, playPauseEffect.
  rewrite Hb, He, Hi.
  repeat split.
  - destruct (mediaSession t) as [m|] eqn:Hm; [|reflexivity].
    destruct (Hh m eq_refl) as [-> _]. reflexivity.
  - destruct (mediaSession t) as [m|] eqn:Hm; [|reflexivity].
    destruct (Hh m eq_refl) as [_ ->]. reflexivity.
Qed.

(** X8.  The cleanup calls [pause()] once on each element that exists, the
    background first, stops the visualisation, and doing it a second time
    changes nothing. *)
Theorem cleanup_pauses_each_element_once : forall s,
  trace (cleanup s)
  = trace s
    ++ match backgroundMusicRef s with
       | Some b => [Pause Background b]
       | None => []
       end
    ++ match easterEggSoundRef s with
       | Some e => [Pause Effect e]
       | None => []
       end /\
  visualizing (cleanup s) = false /\
  cleanup (cleanup s) = cleanup s.
Proof.
  intros s.
  destruct s as [st rd bg egg ctx ftd mr pr plh pah ms il ppl vis fi ev tr].
  destruct bg as [[[|] vb lb tb]|], egg as [[[|] ve le te]|], ctx, ms;
    evaluate; rewrite <- ?app_assoc, ?app_nil_r; repeat split.
Qed.

(** X9.  A fade timer that is still running when the component is torn down
    ends at its next tick: the tick finds no effect element, clears its own
    timer and requests [easterEggActive = false], and does nothing else. *)
Theorem fade_tick_after_cleanup : forall s n allow r,
  nth_error (fadeIntervals s) n = Some r ->
  let t := fadeTick n allow (cleanup s) in
  fadeIntervals t
  = firstn n (fadeIntervals s) ++ skipn (S n) (fadeIntervals s) /\
  length (fadeIntervals t) = pred (length (fadeIntervals s)) /\
  easterEggActive (store t) = false /\
  trace t = trace (cleanup s) ++ [SetEasterEggActive false] /\
  backgroundMusicRef t = None /\
  easterEggSoundRef t = None.
Proof.
  intros s n allow r Hn.
  destruct (cleanup_released s) as (Hb & He & _ & _ & Hf & _ & _).
  cbv zeta. unfold fadeTick, fadeStep. rewrite Hf, Hn, He.
  unfold clearInterval. rewrite Hf.
  assert (Hlen : (n < length (fadeIntervals s))%nat)
    by (apply nth_error_Some; congruence).
  repeat split; try assumption.
  cbn [fadeIntervals setEasterEggActive emit set_trace set_store
       set_fadeIntervals].
  rewrite length_app, length_firstn, length_skipn. lia.
Qed.

Lemma fade_tick_after_cleanup_witness :
  easterEggActive
    (store (fadeTick 0 true
              (cleanup (run [APlayEffect true; ARender true;
                             AStopEffect true true] autoplayed))))
  = false.
Proof.
  exact (proj1 (proj2 (proj2
           (fade_tick_after_cleanup
              (run [APlayEffect true; ARender true; AStopEffect true true]
                 autoplayed)
              0 true (mkSnapshot false true true) eq_refl)))).
Defined.

(** * Renders *)

Lemma store_muteEffect r s : store (muteEffect r s) = store s.
Proof.
  unfold muteEffect, updTrack, setTrack, getTrack, resumeContextIfSuspended.
  repeat break_match; reflexivity.
Qed.

Lemma store_playPauseEffect r a s : store (playPauseEffect r a s) = store s.
Proof.
  unfold playPauseEffect, play, pause, updTrack, setTrack, getTrack,
    resumeContextIfSuspended.
  repeat break_match; reflexivity.
Qed.

Lemma store_render a s : store (render a s) = store s.
Proof.
  unfold render.
  repeat break_match;
    rewrite ?store_playPauseEffect, ?store_muteEffect; reflexivity.
Qed.

Lemma rendered_render a s : rendered (render a s) = store s.
Proof.
  pose proof (ctl_render a s) as E. unfold ctlView in E.
  destruct (_ || _) in E; injection E as _ _ E3 _; exact E3.
Qed.

(** X10.  A render leaves the stored state cells alone and commits them: no
    effect of the component calls a state setter, so a second render right
    after it runs no effect and changes nothing. *)
Theorem render_commits : forall a s,
  committed (render a s) /\
  store (render a s) = store s /\
  forall a', render a' (render a s) = render a s.
Proof.
  intros a s.
  assert (Hc : committed (render a s)).
  { unfold committed. rewrite store_render, rendered_render. reflexivity. }
  split; [exact Hc|]. split; [apply store_render|].
  intros a'. unfold committed in Hc.
  generalize dependent (render a s). intros t Hc.
  destruct t as [st rd bg egg ctx ftd mr pr plh pah ms il ppl vis fi ev tr].
  simpl in Hc. subst rd.
  unfold render. cbn [store rendered]. rewrite !Bool.eqb_reflx. reflexivity.
Qed.

(** X11.  A render in which [isPlaying] changed brings the background element
    in line with the new value: paused when it is false; playing when it is
    true, unless the browser refuses the play request.  The play request is
    made on an element whose loop flag is true, the pause on one that was
    playing. *)
Theorem render_reconciles_transport : forall allow s b,
  backgroundMusicRef s = Some b ->
  isPlaying (rendered s) <> isPlaying (store s) ->
  let s' := render allow s in
  option_map paused (backgroundMusicRef s')
  = Some (if isPlaying (store s) then paused b && negb allow else true) /\
  (isPlaying (store s) = true -> paused b = true ->
     option_map loop (backgroundMusicRef s') = Some true /\
     exists cmds b',
       trace s' = trace s ++ cmds ++ [Play Background b'] /\ loop b' = true) /\
  (isPlaying (store s) = false -> paused b = false ->
     exists cmds b',
       trace s' = trace s ++ cmds ++ [Pause Background b'] /\
       paused b' = false).
Proof.
  intros allow s b Hb Hd.
  destruct s as [st rd bg egg ctx ftd mr pr plh pah ms il ppl vis fi ev tr].
  simpl in Hb, Hd. subst bg.
  destruct st as [m p x], rd as [m' p' x'], b as [pb vb lb tb].
  simpl in Hd.
  destruct p, p'; try congruence; clear Hd;
    destruct m, m', x, x', pb, lb, allow, egg as [[[|] ve le te]|],
      ctx as [[| |]|];
    evaluate; rewrite <- ?app_assoc;
    (split; [reflexivity|]);
    (split; intros Hx Hy; try discriminate Hx; try discriminate Hy);
    first
      [ split; [reflexivity|];
        first [ exists []; eexists; split; reflexivity
              | exists [ResumeContext]; eexists; split; reflexivity ]
      | first [ exists []; eexists; split; reflexivity
              | exists [ResumeContext]; eexists; split; reflexivity ] ].
Qed.

Lemma render_reconciles_transport_witness :
  option_map paused
    (backgroundMusicRef (render true (setIsPlaying false autoplayed)))
  = Some (if isPlaying (store (setIsPlaying false autoplayed))
          then paused (mkAudio false (1#2) true 0) && negb true
          else true).
Proof.
  assert (Hb : backgroundMusicRef (setIsPlaying false autoplayed)
               = Some (mkAudio false (1#2) true 0))
    by (vm_compute; reflexivity).
  assert (H : isPlaying (rendered (setIsPlaying false autoplayed))
              <> isPlaying (store (setIsPlaying false autoplayed))).
  { intro E. vm_compute in E. discriminate E. }
  exact (proj1 (render_reconciles_transport true
                  (setIsPlaying false autoplayed) _ Hb H)).
Defined.

(** * Play/pause toggle *)

(** X12.  [togglePlayPause] acts on the transport state of the element, not
    on the playing flag: a playing element is paused and [isPlaying = false]
    is requested; a paused one is started if the browser accepts, and the
    flag is left to the [playing] event.  The effect element and the
    committed snapshot are untouched, and two accepted toggles give the
    background element back as it was. *)
Theorem togglePlayPause_flips_transport : forall allow s b,
  backgroundMusicRef s = Some b ->
  let s' := togglePlayPause allow s in
  backgroundMusicRef s'
  = Some (set_paused (if paused b then negb allow else true) b) /\
  easterEggSoundRef s' = easterEggSoundRef s /\
  store s'
  = (if paused b then store s
     else mkSnapshot (isMuted (store s)) false (easterEggActive (store s))) /\
  rendered s' = rendered s /\
  backgroundMusicRef (togglePlayPause true (togglePlayPause true s)) = Some b.
Proof.
  intros allow s b Hb.
  destruct s as [st rd bg egg ctx ftd mr pr plh pah ms il ppl vis fi ev tr].
  simpl in Hb. subst bg.
  destruct st as [m p x], b as [pb vb lb tb].
  destruct pb, ftd, allow, ctx as [[| |]|], ms, ppl; evaluate; repeat split.
Qed.

Lemma togglePlayPause_flips_transport_witness :
  backgroundMusicRef (togglePlayPause true (togglePlayPause true autoplayed))
  = Some (mkAudio false (1#2) true 0).
Proof.
  exact (proj2 (proj2 (proj2 (proj2
           (togglePlayPause_flips_transport true autoplayed
              (mkAudio false (1#2) true 0) eq_refl))))).
Defined.

(** X13.  From a state in which no media event is waiting, React has
    committed and the playing flag is the transport state of the background
    element, that remains so after [togglePlayPause], and after
    [playEasterEggSound], once the queued events are delivered and React has
    committed; after [playEasterEggSound] the committed flag is false. *)
Theorem flag_mirrors_transport : forall a1 a2 a3 a4 s,
  mirrored s ->
  mirrored (render a3 (deliver a2 (togglePlayPause a1 s))) /\
  let t := render a4 (deliver a3 (deliver a2
             (playEasterEggSound (rendered s) a1 s))) in
  mirrored t /\
  (easterEggSoundRef s <> None -> isPlaying (rendered t) = false).
Proof.
  intros a1 a2 a3 a4 s (He & Hc & b & Hb & Hp).
  destruct s as [st rd bg egg ctx ftd mr pr plh pah ms il ppl vis fi ev tr].
  unfold committed in Hc. simpl in He, Hc, Hb, Hp. subst ev rd bg.
  destruct st as [m p x], b as [pb vb lb tb]. simpl in Hp. subst p.
  unfold mirrored, committed.
  split; [|split].
  - destruct m, x, pb, ftd, a1, ctx as [[| |]|], ms, ppl;
      vm_compute; (split; [reflexivity|]); (split; [reflexivity|]);
      eexists; split; reflexivity.
  - destruct pb, m, x, a1, ctx as [[| |]|], ms,
      egg as [[[|] ve le te]|];
      vm_compute; (split; [reflexivity|]); (split; [reflexivity|]);
      eexists; split; reflexivity.
  - intros Hegg.
    destruct egg as [[pe ve le te]|];
      [|exfalso; apply Hegg; reflexivity]. clear Hegg.
    destruct pb, m, x, a1, ctx as [[| |]|], ms, pe;
      vm_compute; reflexivity.
Qed.

Lemma flag_mirrors_transport_witness :
  mirrored autoplayed /\
  mirrored (render true (deliver true (togglePlayPause true autoplayed))).
Proof.
  assert (H : mirrored autoplayed).
  { split; [reflexivity|]. split; [reflexivity|].
    exists (mkAudio false (1#2) true 0). split; reflexivity. }
  split; [exact H|].
  exact (proj1 (flag_mirrors_transport true true true true autoplayed H)).
Defined.

(** * The effect and the media session *)

(** X14.  [playEasterEggSound] on an existing effect element: the element is
    rewound to 0, its volume is 0 when the caller's render is muted and 1.0
    otherwise, and it plays if the browser accepts; [easterEggActive = true]
    is requested and [isPlaying] is not written; the background element is
    paused exactly when the caller's render has [isPlaying] set, and only then
    does the media session show the effect's metadata. *)
Theorem playEasterEggSound_postcondition : forall r allow s e,
  easterEggSoundRef s = Some e ->
  let s' := playEasterEggSound r allow s in
  easterEggSoundRef s'
  = Some (mkAudio (paused e && negb allow) (if isMuted r then 0 else 1)
            (loop e) 0) /\
  easterEggActive (store s') = true /\
  isPlaying (store s') = isPlaying (store s) /\
  backgroundMusicRef s'
  = option_map (fun b => set_paused (isPlaying r || paused b) b)
      (backgroundMusicRef s) /\
  option_map metadata (mediaSession s')
  = option_map
      (fun m => match backgroundMusicRef s with
                | Some _ => if isPlaying r then Some EasterEggSound
                            else metadata m
                | None => metadata m
                end)
      (mediaSession s).
Proof.
  intros r allow s e He.
  destruct s as [st rd bg egg ctx ftd mr pr plh pah ms il ppl vis fi ev tr].
  simpl in He. subst egg.
  destruct st as [m p x], r as [rm rp rx], e as [pe ve le te].
  destruct rm, rp, pe, allow, bg as [[[|] vb lb tb]|], ms as [[md ps h1 h2]|];
    evaluate; repeat split.
Qed.

Lemma playEasterEggSound_postcondition_witness :
  easterEggActive
    (store (playEasterEggSound (rendered autoplayed) true autoplayed)) = true.
Proof.
  exact (proj1 (proj2
           (playEasterEggSound_postcondition (rendered autoplayed) true
              autoplayed (mkAudio true 1 false 0) eq_refl))).
Defined.

(** X15.  [stopEasterEggSound(false)] with a media session: the effect
    element is paused and rewound with its volume unchanged, no fade timer is
    started, [easterEggActive = false] is requested, the session shows the
    background metadata again and its playback state is read off the
    background element's paused flag as the call leaves it. *)
Theorem stopEasterEggSound_postcondition : forall r allow s e m,
  easterEggSoundRef s = Some e ->
  mediaSession s = Some m ->
  let s' := stopEasterEggSound r false allow s in
  easterEggSoundRef s' = Some (mkAudio true (volume e) (loop e) 0) /\
  easterEggActive (store s') = false /\
  fadeIntervals s' = fadeIntervals s /\
  option_map metadata (mediaSession s') = Some (Some LofiBeats) /\
  option_map playbackState (mediaSession s')
  = Some (match backgroundMusicRef s' with
          | Some b => if paused b then PSPaused else PSPlaying
          | None => PSPaused
          end) /\
  (exists rest, trace s' = trace s ++ Pause Effect e :: rest).
Proof.
  intros r allow s e m He Hm.
  destruct s as [st rd bg egg ctx ftd mr pr plh pah ms il ppl vis fi ev tr].
  simpl in He, Hm. subst egg ms.
  destruct st as [sm sp sx], r as [rm rp rx], e as [pe ve le te],
    m as [md ps h1 h2].
  destruct rp, pe, allow, bg as [[[|] vb [|] tb]|], ctx as [[| |]|], plh, pah;
    evaluate; rewrite <- ?app_assoc;
    do 5 (split; [reflexivity|]); eexists; reflexivity.
Qed.

Lemma stopEasterEggSound_postcondition_witness :
  easterEggActive
    (store (stopEasterEggSound (rendered autoplayed) false true
              (playEasterEggSound (rendered autoplayed) true autoplayed)))
  = false.
Proof.
  assert (He : easterEggSoundRef
                 (playEasterEggSound (rendered autoplayed) true autoplayed)
               = Some (mkAudio false 1 false 0))
    by (vm_compute; reflexivity).
  assert (Hm : mediaSession
                 (playEasterEggSound (rendered autoplayed) true autoplayed)
               = Some (mkSession (Some EasterEggSound) PSPlaying
                         (Some BackgroundPlayHandler)
                         (Some (EasterEggPauseHandler
                                  (mkSnapshot false true false)))))
    by (vm_compute; reflexivity).
  exact (proj1 (proj2
           (stopEasterEggSound_postcondition (rendered autoplayed) true
              (playEasterEggSound (rendered autoplayed) true autoplayed)
              _ _ He Hm))).
Defined.

(** X16.  [playEasterEggSound] over a background flagged playing stores the
    effect's pause handler in [mediaSessionPauseHandlerRef];
    [restoreBackgroundMusicMediaSession] reinstalls the handlers from the
    refs, so after [stopEasterEggSound(false)] the session's pause handler is
    still the effect's one, and a pause command from the operating system
    changes nothing. *)
Theorem effect_pause_handler_survives_stop : forall r r' a1 a2 a3 s b e m h,
  backgroundMusicRef s = Some b ->
  easterEggSoundRef s = Some e ->
  mediaSession s = Some m ->
  mediaSessionPlayHandlerRef s = Some h ->
  isPlaying r = true ->
  let s1 := playEasterEggSound r a1 s in
  let s2 := stopEasterEggSound r' false a2 s1 in
  option_map pauseHandler (mediaSession s1)
  = Some (Some (EasterEggPauseHandler r)) /\
  option_map pauseHandler (mediaSession s2)
  = Some (Some (EasterEggPauseHandler r)) /\
  option_map playHandler (mediaSession s2) = Some (Some h) /\
  mediaSessionPauseHandlerRef s2 = Some (EasterEggPauseHandler r) /\
  mediaSessionPause a3 s2 = s2.
Proof.
  intros r r' a1 a2 a3 s b e m h Hb He Hm Hh Hr.
  destruct s as [st rd bg egg ctx ftd mr pr plh pah ms il ppl vis fi ev tr].
  simpl in Hb, He, Hm, Hh. subst bg egg ms plh.
  destruct st as [sm sp sx], r as [rm rp rx], r' as [rm' rp' rx'],
    e as [pe ve le te], b as [pb vb lb tb], m as [md ps h1 h2].
  simpl in Hr. subst rp.
  destruct rp', pe, pb, lb, a1, a2, ctx as [[| |]|];
    evaluate; repeat split.
Qed.

Lemma effect_pause_handler_survives_stop_witness :
  mediaSessionPause true
    (stopEasterEggSound (rendered autoplayed) false true
       (playEasterEggSound (rendered autoplayed) true autoplayed))
  = stopEasterEggSound (rendered autoplayed) false true
      (playEasterEggSound (rendered autoplayed) true autoplayed).
Proof.
  assert (Hb : backgroundMusicRef autoplayed
               = Some (mkAudio false (1#2) true 0))
    by (vm_compute; reflexivity).
  assert (He : easterEggSoundRef autoplayed = Some (mkAudio true 1 false 0))
    by (vm_compute; reflexivity).
  assert (Hm : mediaSession autoplayed
               = Some (mkSession (Some LofiBeats) PSPlaying
                         (Some BackgroundPlayHandler)
                         (Some BackgroundPauseHandler)))
    by (vm_compute; reflexivity).
  assert (Hh : mediaSessionPlayHandlerRef autoplayed
               = Some BackgroundPlayHandler)
    by (vm_compute; reflexivity).
  assert (Hr : isPlaying (rendered autoplayed) = true)
    by (vm_compute; reflexivity).
  exact (proj2 (proj2 (proj2 (proj2
           (effect_pause_handler_survives_stop
              (rendered autoplayed) (rendered autoplayed) true true true
              autoplayed _ _ _ _ Hb He Hm Hh Hr))))).
Defined.

Lemma fadeStep_last : forall r n allow s,
  fading r s = false ->
  let t := fadeStep r n allow s in
  easterEggActive (store t) = false /\
  match easterEggSoundRef s with
  | Some e =>
      easterEggSoundRef t
      = Some (mkAudio true (if isMuted r then volume e else 1) (loop e)
                (currentTime e))
  | None => easterEggSoundRef t = None
  end.
Proof.
  intros r n allow s Hf.
  destruct s as [st rd bg egg ctx ftd mr pr plh pah ms il ppl vis fi ev tr].
  destruct r as [m p a].
  unfold fading in Hf. cbn [easterEggSoundRef isMuted] in Hf.
  cbv zeta. unfold fadeStep. cbn [easterEggSoundRef isMuted].
  destruct egg as [[pe ve le te]|]; [|split; reflexivity].
  cbn [volume] in *. rewrite Hf.
  destruct m, p, pe, bg as [[[|] vb [|] tb]|], ctx as [[| |]|], allow, ms;
    evaluate; split; reflexivity.
Qed.

(** X17.  A fade that runs to its end leaves the effect element paused, with
    its volume back at 1.0 when the mute flag captured by the call is false
    and untouched by the last tick when it is set, and has requested
    [easterEggActive = false]. *)
Theorem fade_end_state : forall fuel r n allow s t,
  fade fuel r n allow s = Some t ->
  easterEggActive (store t) = false /\
  match easterEggSoundRef s with
  | Some _ =>
      exists e, easterEggSoundRef t = Some e /\
                paused e = true /\
                (isMuted r = false -> volume e = 1)
  | None => easterEggSoundRef t = None
  end.
Proof.
  induction fuel as [|k IH]; intros r n allow s t H; [discriminate H|].
  simpl in H. destruct (fading r s) eqn:Hf.
  - unfold fading in Hf.
    destruct (easterEggSoundRef s) as [e|] eqn:He; [|discriminate Hf].
    assert (Hf' : fading r s = true) by (unfold fading; rewrite He; exact Hf).
    rewrite (fadeStep_lowers r n allow s e He Hf') in H.
    apply IH in H. exact H.
  - injection H as <-.
    destruct (fadeStep_last r n allow s Hf) as [H1 H2].
    split; [exact H1|].
    destruct (easterEggSoundRef s) as [e|]; [|exact H2].
    eexists. split; [exact H2|]. split; [reflexivity|].
    intros ->. reflexivity.
Qed.

Lemma fade_end_state_witness :
  easterEggActive
    (store (fadeStep (mkSnapshot true false true) 0 true
              (run [AToggleMute; ARender true; APlayEffect true; ARender true;
                    AStopEffect true true] mounted)))
  = false.
Proof.
  assert (H : fade 1 (mkSnapshot true false true) 0 true
                (run [AToggleMute; ARender true; APlayEffect true;
                      ARender true; AStopEffect true true] mounted)
              = Some (fadeStep (mkSnapshot true false true) 0 true
                        (run [AToggleMute; ARender true; APlayEffect true;
                              ARender true; AStopEffect true true] mounted)))
    by (vm_compute; reflexivity).
  exact (proj1
           (fade_end_state 1 (mkSnapshot true false true) 0 true
              (run [AToggleMute; ARender true; APlayEffect true; ARender true;
                    AStopEffect true true] mounted)
              _ H)).
Defined.
